(** * The user list view of the console: state, handlers and their properties

    A shallow embedding of the [<script setup>] block of the user list view
    (the reactive state, [handleFetchUsers], [searchResults],
    [handlePaginationChange], [handleDelete], [handleDeleteInBatch], the
    watcher on [selectedUserNames], [handleCheckAllChange], [getRoles] and the
    mount/unmount hooks) together with the parts of the JavaScript runtime
    the script relies on: strings, truthiness, [JSON.parse], interval timers
    and promises. *)

From Stdlib Require Import String Ascii List Bool NArith ZArith Arith Lia.
Import ListNotations.

Local Open Scope list_scope.

(* ================================================================== *)
(** ** JavaScript strings *)
(* ================================================================== *)

Module JS.

(** A JavaScript string is a sequence of UTF-16 code units. *)
Definition codeunit := N.
Definition jsstring := list codeunit.

(** A literal written with characters below U+0100. *)
Definition js (s : string) : jsstring :=
  map N_of_ascii (list_ascii_of_string s).
Arguments js s%_string.

Definition jsstring_eqb (a b : jsstring) : bool :=
  if list_eq_dec N.eq_dec a b then true else false.

(** [ToBoolean] on a string: only the empty string is falsy. *)
Definition truthy_string (s : jsstring) : bool :=
  match s with [] => false | _ :: _ => true end.

(** [ToBoolean] on [string | undefined]. *)
Definition truthy (v : option jsstring) : bool :=
  match v with None => false | Some s => truthy_string s end.

(** [v || d] for [v : string | undefined] and a string [d]. *)
Definition or_default (v : option jsstring) (d : jsstring) : jsstring :=
  match v with
  | Some s => if truthy_string s then s else d
  | None => d
  end.

(** [a != b] for a string [a] and [b : string | undefined]: a string is
    loosely equal to no [undefined]. *)
Definition loose_neq (a : jsstring) (b : option jsstring) : bool :=
  match b with
  | Some s => negb (jsstring_eqb a s)
  | None => true
  end.

(** [a === b] for a string [a] and [b : string | undefined]. *)
Definition strict_eq (a : jsstring) (b : option jsstring) : bool :=
  match b with
  | Some s => jsstring_eqb a s
  | None => false
  end.

(** [Array.prototype.includes] on an array of strings. *)
Definition includes (l : list jsstring) (x : jsstring) : bool :=
  existsb (jsstring_eqb x) l.

End JS.
Import JS.

(* ================================================================== *)
(** ** [JSON.parse] *)
(* ================================================================== *)

Module JSON.

(** The value [JSON.parse] builds.  A number keeps its lexeme (its double
    value is not needed here); an object keeps its members in insertion
    order, a repeated key overwriting the earlier value (the place that
    index-like keys take when an object is enumerated is not modelled). *)
#[warnings="-register-all"]
Inductive json : Type :=
| JNull
| JBool (b : bool)
| JNumber (lexeme : jsstring)
| JString (s : jsstring)
| JArray (elements : list json)
| JObject (members : list (jsstring * json)).

Inductive parse_result (A : Type) : Type :=
| POk (a : A)
| PSyntaxError
| POutOfFuel.
Arguments POk {A} a.
Arguments PSyntaxError {A}.
Arguments POutOfFuel {A}.

Definition c_tab : N := 9.
Definition c_lf : N := 10.
Definition c_cr : N := 13.
Definition c_space : N := 32.
Definition c_quote : N := 34.
Definition c_plus : N := 43.
Definition c_comma : N := 44.
Definition c_minus : N := 45.
Definition c_dot : N := 46.
Definition c_slash : N := 47.
Definition c_0 : N := 48.
Definition c_9 : N := 57.
Definition c_colon : N := 58.
Definition c_E : N := 69.
Definition c_lbracket : N := 91.
Definition c_backslash : N := 92.
Definition c_rbracket : N := 93.
Definition c_e : N := 101.
Definition c_lbrace : N := 123.
Definition c_rbrace : N := 125.

Definition is_ws (c : N) : bool :=
  (c =? c_space)%N || (c =? c_tab)%N || (c =? c_lf)%N || (c =? c_cr)%N.

Definition is_digit (c : N) : bool := (c_0 <=? c)%N && (c <=? c_9)%N.

Fixpoint skip_ws (s : jsstring) : jsstring :=
  match s with
  | c :: r => if is_ws c then skip_ws r else s
  | [] => []
  end.

(** The longest prefix of digits, and what follows it. *)
Fixpoint span_digits (s : jsstring) : jsstring * jsstring :=
  match s with
  | c :: r =>
      if is_digit c
      then let (ds, rest) := span_digits r in (c :: ds, rest)
      else ([], s)
  | [] => ([], [])
  end.

Fixpoint strip_prefix (p s : jsstring) : option jsstring :=
  match p, s with
  | [], _ => Some s
  | a :: p', b :: s' => if (a =? b)%N then strip_prefix p' s' else None
  | _ :: _, [] => None
  end.

(** The value of a hexadecimal digit. *)
Definition hex_digit (c : N) : option N :=
  if (48 <=? c)%N && (c <=? 57)%N then Some (c - 48)%N
  else if (65 <=? c)%N && (c <=? 70)%N then Some (c - 55)%N
  else if (97 <=? c)%N && (c <=? 102)%N then Some (c - 87)%N
  else None.

Definition hex4 (a b c d : N) : option N :=
  match hex_digit a, hex_digit b, hex_digit c, hex_digit d with
  | Some x, Some y, Some z, Some w => Some (((x * 16 + y) * 16 + z) * 16 + w)%N
  | _, _, _, _ => None
  end.

(** The code unit a two-character escape stands for. *)
Definition simple_escape (c : N) : option N :=
  if (c =? c_quote)%N then Some c_quote
  else if (c =? c_backslash)%N then Some c_backslash
  else if (c =? c_slash)%N then Some c_slash
  else if (c =? 98)%N then Some 8%N        (* \b *)
  else if (c =? 102)%N then Some 12%N      (* \f *)
  else if (c =? 110)%N then Some 10%N      (* \n *)
  else if (c =? 114)%N then Some 13%N      (* \r *)
  else if (c =? 116)%N then Some 9%N       (* \t *)
  else None.

(** The characters of a string after its opening quote, up to and
    including the closing one; [acc] holds the decoded code units in
    reverse. *)
Fixpoint parse_string_body (s acc : jsstring) : option (jsstring * jsstring) :=
  match s with
  | [] => None
  | c :: r =>
      if (c =? c_quote)%N then Some (rev acc, r)
      else if (c =? c_backslash)%N then
        match r with
        | [] => None
        | e :: r1 =>
            if (e =? 117)%N then              (* \uXXXX *)
              match r1 with
              | h1 :: h2 :: h3 :: h4 :: r2 =>
                  match hex4 h1 h2 h3 h4 with
                  | Some u => parse_string_body r2 (u :: acc)
                  | None => None
                  end
              | _ => None
              end
            else
              match simple_escape e with
              | Some u => parse_string_body r1 (u :: acc)
              | None => None
              end
        end
      else if (c <? 32)%N then None
      else parse_string_body r (c :: acc)
  end.

(** A number: an optional minus sign; then a single zero, or a non-zero
    digit and any digits; then optionally a dot and at least one digit;
    then optionally e or E, an optional sign and at least one digit. *)
Definition number_sign (s : jsstring) : jsstring * jsstring :=
  match s with
  | c :: r => if (c =? c_minus)%N then ([c], r) else ([], s)
  | [] => ([], s)
  end.

Definition number_int (s : jsstring) : option (jsstring * jsstring) :=
  match s with
  | [] => None
  | d :: r =>
      if negb (is_digit d) then None
      else if (d =? c_0)%N then Some ([d], r)
      else let (ds, rest) := span_digits r in Some (d :: ds, rest)
  end.

Definition number_frac (s : jsstring) : option (jsstring * jsstring) :=
  match s with
  | c :: r =>
      if (c =? c_dot)%N then
        match span_digits r with
        | ([], _) => None
        | (ds, rest) => Some (c :: ds, rest)
        end
      else Some ([], s)
  | [] => Some ([], s)
  end.

Definition exponent_sign (s : jsstring) : jsstring * jsstring :=
  match s with
  | g :: r => if (g =? c_plus)%N || (g =? c_minus)%N then ([g], r) else ([], s)
  | [] => ([], s)
  end.

Definition number_exp (s : jsstring) : option (jsstring * jsstring) :=
  match s with
  | c :: r =>
      if (c =? c_e)%N || (c =? c_E)%N then
        let (sg, r1) := exponent_sign r in
        match span_digits r1 with
        | ([], _) => None
        | (ds, rest) => Some (c :: sg ++ ds, rest)
        end
      else Some ([], s)
  | [] => Some ([], s)
  end.

Definition parse_number (s : jsstring) : option (jsstring * jsstring) :=
  let (sign, s1) := number_sign s in
  match number_int s1 with
  | None => None
  | Some (int, s2) =>
      match number_frac s2 with
      | None => None
      | Some (fr, s3) =>
          match number_exp s3 with
          | None => None
          | Some (ex, s4) => Some (sign ++ int ++ fr ++ ex, s4)
          end
      end
  end.

(** Setting a property of the object under construction. *)
Fixpoint obj_set (k : jsstring) (v : json) (members : list (jsstring * json))
  : list (jsstring * json) :=
  match members with
  | [] => [(k, v)]
  | (k', v') :: rest =>
      if jsstring_eqb k k' then (k', v) :: rest
      else (k', v') :: obj_set k v rest
  end.

Definition lift {A} (o : option A) : parse_result A :=
  match o with Some a => POk a | None => PSyntaxError end.

(** Recursive descent; [fuel] bounds the depth of the calls. *)
Fixpoint parse_value (fuel : nat) (s : jsstring) {struct fuel}
  : parse_result (json * jsstring) :=
  match fuel with
  | O => POutOfFuel
  | S fuel' =>
      match skip_ws s with
      | [] => PSyntaxError
      | c :: r =>
          if (c =? c_lbrace)%N then
            match skip_ws r with
            | [] => PSyntaxError
            | c' :: r' =>
                if (c' =? c_rbrace)%N then POk (JObject [], r')
                else parse_members fuel' r []
            end
          else if (c =? c_lbracket)%N then
            match skip_ws r with
            | [] => PSyntaxError
            | c' :: r' =>
                if (c' =? c_rbracket)%N then POk (JArray [], r')
                else parse_elements fuel' r []
            end
          else if (c =? c_quote)%N then
            match parse_string_body r [] with
            | Some (str, rest) => POk (JString str, rest)
            | None => PSyntaxError
            end
          else if (c =? 116)%N then          (* t *)
            match strip_prefix (js "rue") r with
            | Some rest => POk (JBool true, rest)
            | None => PSyntaxError
            end
          else if (c =? 102)%N then          (* f *)
            match strip_prefix (js "alse") r with
            | Some rest => POk (JBool false, rest)
            | None => PSyntaxError
            end
          else if (c =? 110)%N then          (* n *)
            match strip_prefix (js "ull") r with
            | Some rest => POk (JNull, rest)
            | None => PSyntaxError
            end
          else
            match parse_number (c :: r) with
            | Some (lexeme, rest) => POk (JNumber lexeme, rest)
            | None => PSyntaxError
            end
      end
  end

with parse_elements (fuel : nat) (s : jsstring) (acc : list json) {struct fuel}
  : parse_result (json * jsstring) :=
  match fuel with
  | O => POutOfFuel
  | S fuel' =>
      match parse_value fuel' s with
      | POk (v, r) =>
          match skip_ws r with
          | [] => PSyntaxError
          | c :: r' =>
              if (c =? c_comma)%N then parse_elements fuel' r' (v :: acc)
              else if (c =? c_rbracket)%N then POk (JArray (rev (v :: acc)), r')
              else PSyntaxError
          end
      | PSyntaxError => PSyntaxError
      | POutOfFuel => POutOfFuel
      end
  end

with parse_members (fuel : nat) (s : jsstring) (acc : list (jsstring * json))
  {struct fuel} : parse_result (json * jsstring) :=
  match fuel with
  | O => POutOfFuel
  | S fuel' =>
      match skip_ws s with
      | [] => PSyntaxError
      | q :: r =>
          if negb (q =? c_quote)%N then PSyntaxError
          else
            match parse_string_body r [] with
            | None => PSyntaxError
            | Some (k, r1) =>
                match skip_ws r1 with
                | [] => PSyntaxError
                | c :: r2 =>
                    if negb (c =? c_colon)%N then PSyntaxError
                    else
                      match parse_value fuel' r2 with
                      | POk (v, r3) =>
                          match skip_ws r3 with
                          | [] => PSyntaxError
                          | d :: r4 =>
                              if (d =? c_comma)%N
                              then parse_members fuel' r4 (obj_set k v acc)
                              else if (d =? c_rbrace)%N
                              then POk (JObject (obj_set k v acc), r4)
                              else PSyntaxError
                          end
                      | PSyntaxError => PSyntaxError
                      | POutOfFuel => POutOfFuel
                      end
                end
            end
      end
  end.

(** One value, surrounded by white space and nothing else. *)
Definition parse_with (fuel : nat) (text : jsstring) : parse_result json :=
  match parse_value fuel text with
  | POk (v, rest) =>
      match skip_ws rest with
      | [] => POk v
      | _ :: _ => PSyntaxError
      end
  | PSyntaxError => PSyntaxError
  | POutOfFuel => POutOfFuel
  end.

Definition fuel_for (text : jsstring) : nat := 2 * List.length text + 1.

(** [JSON.parse(text)]. *)
Definition parse (text : jsstring) : parse_result json :=
  parse_with (fuel_for text) text.

End JSON.

(* ================================================================== *)
(** ** The API client's data *)
(* ================================================================== *)

Module Api.

Record Metadata : Type := {
  name : jsstring;
  annotations : option (list (jsstring * jsstring));
  deletionTimestamp : option jsstring;
  creationTimestamp : option jsstring
}.

Record UserSpec : Type := {
  displayName : jsstring;
  avatar : option jsstring;
  email : jsstring
}.

Record User : Type := {
  metadata : Metadata;
  spec : UserSpec
}.

Record UserList : Type := {
  page : Z;
  size : Z;
  total : Z;
  items : list User;
  first : bool;
  last : bool;
  hasNext : bool;
  hasPrevious : bool;
  totalPages : Z
}.

(** [users.value.page = page; users.value.size = size]. *)
Definition with_page_size (p sz : Z) (l : UserList) : UserList :=
  {| page := p; size := sz; total := total l; items := items l;
     first := first l; last := last l; hasNext := hasNext l;
     hasPrevious := hasPrevious l; totalPages := totalPages l |}.

(** [annotations?.[key]]: the value of an own property, or [undefined]. *)
Fixpoint lookup (key : jsstring) (o : list (jsstring * jsstring)) : option jsstring :=
  match o with
  | [] => None
  | (k, v) :: rest => if jsstring_eqb key k then Some v else lookup key rest
  end.

Definition annotation (key : jsstring) (m : Metadata) : option jsstring :=
  match annotations m with
  | Some o => lookup key o
  | None => None
  end.

(** What a rejected remote call is rejected with. *)
Inductive Error : Type :=
| RemoteError (message : jsstring).

(** How a promise settles. *)
Inductive Settled (A : Type) : Type :=
| Fulfilled (value : A)
| Rejected (reason : Error).
Arguments Fulfilled {A} value.
Arguments Rejected {A} reason.

Definition fulfilled {A} (p : Settled A) : bool :=
  match p with
  | Fulfilled _ => true
  | Rejected _ => false
  end.

(** The remote calls the view issues. *)
Inductive Request : Type :=
| listv1alpha1User (page size : Z)
| deletev1alpha1User (name : jsstring).

End Api.

(** Modelled from the spec: the annotation key [rbacAnnotations.ROLE_NAMES] is
    declared in [@/constants/annotations], which is not among the sources;
    the spec says the role list is "keyed by a fixed constant name".  No
    result below depends on the value chosen here. *)
Definition ROLE_NAMES : jsstring := js "rbac.authorization.halo.run/role-names".

(* ================================================================== *)
(** ** The search index *)
(* ================================================================== *)

Module Fuse.

(** [new Fuse(docs, { keys, useExtendedSearch })]. *)
Record t : Type := {
  docs : list Api.User;
  keys : list jsstring;
  useExtendedSearch : bool
}.

(** One result of [search]. *)
Record Result : Type := {
  item : Api.User;
  refIndex : nat
}.

End Fuse.

(* ================================================================== *)
(** ** The view: state, effects and handlers *)
(* ================================================================== *)

Module View.
Import Api.

(** What the view does to the outside, in the order it does it. *)
Inductive Effect : Type :=
| Call (r : Request)
| ConsoleError (message : jsstring) (e : Error)
| ToastSuccess (message : jsstring)
| SetInterval (handle : nat)
| ClearInterval (handle : option nat).

(** The refs of the script ([checkedAll] to [routeQueryAction]), the
    plain variable [fuse], the user store's [currentUser], and the
    browser's side: the interval timers that are active, the next timer
    handle, and the effects so far. *)
Record State : Type := {
  checkedAll : bool;
  editingModal : bool;
  passwordChangeModal : bool;
  grantPermissionModal : bool;
  users : UserList;
  loading : bool;
  selectedUserNames : list jsstring;
  selectedUser : option User;
  refreshInterval : option nat;
  fuse : option Fuse.t;
  keyword : jsstring;
  routeQueryAction : option jsstring;
  currentUser : option User;
  timers : list nat;
  nextHandle : nat;
  log : list Effect
}.

Definition emptyPage : UserList :=
  {| page := 1; size := 20; total := 0; items := [];
     first := true; last := false; hasNext := false; hasPrevious := false;
     totalPages := 0 |}.

(** The state the script sets up, for a given signed-in user and
    [action] query parameter. *)
Definition initial (me : option User) (action : option jsstring) : State :=
  {| checkedAll := false;
     editingModal := false;
     passwordChangeModal := false;
     grantPermissionModal := false;
     users := emptyPage;
     loading := false;
     selectedUserNames := [];
     selectedUser := None;
     refreshInterval := None;
     fuse := None;
     keyword := [];
     routeQueryAction := action;
     currentUser := me;
     timers := [];
     nextHandle := 1;
     log := [] |}.

Definition set_checkedAll (v : bool) (s : State) : State :=
  let 'Build_State _ em pm gm us lo sn su ri fu kw rq cu ti nh lg := s in
  Build_State v em pm gm us lo sn su ri fu kw rq cu ti nh lg.
Definition set_editingModal (v : bool) (s : State) : State :=
  let 'Build_State ca _ pm gm us lo sn su ri fu kw rq cu ti nh lg := s in
  Build_State ca v pm gm us lo sn su ri fu kw rq cu ti nh lg.
Definition set_passwordChangeModal (v : bool) (s : State) : State :=
  let 'Build_State ca em _ gm us lo sn su ri fu kw rq cu ti nh lg := s in
  Build_State ca em v gm us lo sn su ri fu kw rq cu ti nh lg.
Definition set_grantPermissionModal (v : bool) (s : State) : State :=
  let 'Build_State ca em pm _ us lo sn su ri fu kw rq cu ti nh lg := s in
  Build_State ca em pm v us lo sn su ri fu kw rq cu ti nh lg.
Definition set_users (v : UserList) (s : State) : State :=
  let 'Build_State ca em pm gm _ lo sn su ri fu kw rq cu ti nh lg := s in
  Build_State ca em pm gm v lo sn su ri fu kw rq cu ti nh lg.
Definition set_loading (v : bool) (s : State) : State :=
  let 'Build_State ca em pm gm us _ sn su ri fu kw rq cu ti nh lg := s in
  Build_State ca em pm gm us v sn su ri fu kw rq cu ti nh lg.
Definition set_selectedUserNames (v : list jsstring) (s : State) : State :=
  let 'Build_State ca em pm gm us lo _ su ri fu kw rq cu ti nh lg := s in
  Build_State ca em pm gm us lo v su ri fu kw rq cu ti nh lg.
Definition set_selectedUser (v : option User) (s : State) : State :=
  let 'Build_State ca em pm gm us lo sn _ ri fu kw rq cu ti nh lg := s in
  Build_State ca em pm gm us lo sn v ri fu kw rq cu ti nh lg.
Definition set_refreshInterval (v : option nat) (s : State) : State :=
  let 'Build_State ca em pm gm us lo sn su _ fu kw rq cu ti nh lg := s in
  Build_State ca em pm gm us lo sn su v fu kw rq cu ti nh lg.
Definition set_fuse (v : option Fuse.t) (s : State) : State :=
  let 'Build_State ca em pm gm us lo sn su ri _ kw rq cu ti nh lg := s in
  Build_State ca em pm gm us lo sn su ri v kw rq cu ti nh lg.
Definition set_keyword (v : jsstring) (s : State) : State :=
  let 'Build_State ca em pm gm us lo sn su ri fu _ rq cu ti nh lg := s in
  Build_State ca em pm gm us lo sn su ri fu v rq cu ti nh lg.
Definition set_routeQueryAction (v : option jsstring) (s : State) : State :=
  let 'Build_State ca em pm gm us lo sn su ri fu kw _ cu ti nh lg := s in
  Build_State ca em pm gm us lo sn su ri fu kw v cu ti nh lg.
Definition set_timers (v : list nat) (s : State) : State :=
  let 'Build_State ca em pm gm us lo sn su ri fu kw rq cu _ nh lg := s in
  Build_State ca em pm gm us lo sn su ri fu kw rq cu v nh lg.
Definition set_nextHandle (v : nat) (s : State) : State :=
  let 'Build_State ca em pm gm us lo sn su ri fu kw rq cu ti _ lg := s in
  Build_State ca em pm gm us lo sn su ri fu kw rq cu ti v lg.
Definition set_log (v : list Effect) (s : State) : State :=
  let 'Build_State ca em pm gm us lo sn su ri fu kw rq cu ti nh _ := s in
  Build_State ca em pm gm us lo sn su ri fu kw rq cu ti nh v.

(** *** Statements: state passing with exceptions *)

Inductive Completion (A : Type) : Type :=
| Normal (a : A)
| Throw (e : Error).
Arguments Normal {A} a.
Arguments Throw {A} e.

Definition M (A : Type) : Type := State -> Completion A * State.

Definition ret {A} (a : A) : M A := fun s => (Normal a, s).

Definition bind {A B} (m : M A) (k : A -> M B) : M B :=
  fun s =>
    match m s with
    | (Normal a, s') => k a s'
    | (Throw e, s') => (Throw e, s')
    end.

Definition throw {A} (e : Error) : M A := fun s => (Throw e, s).

Definition get {A} (field : State -> A) : M A := fun s => (Normal (field s), s).

Definition put {A} (setter : A -> State -> State) (v : A) : M unit :=
  fun s => (Normal tt, setter v s).

Definition when (b : bool) (m : M unit) : M unit := if b then m else ret tt.

(** [try { body } catch (e) { handler } finally { finalizer }]. *)
Definition try_catch_finally {A} (body : M A) (handler : Error -> M A)
  (finalizer : M unit) : M A :=
  fun s =>
    let '(c1, s1) := body s in
    let '(c2, s2) :=
      match c1 with
      | Normal a => (Normal a, s1)
      | Throw e => handler e s1
      end in
    match finalizer s2 with
    | (Normal _, s3) => (c2, s3)
    | (Throw e, s3) => (Throw e, s3)
    end.

Definition completion {A} (m : M A) (s : State) : Completion A := fst (m s).
Definition exec {A} (m : M A) (s : State) : State := snd (m s).

Notation "x <- m ;; k" := (bind m (fun x => k))
  (at level 61, m at next level, right associativity).
Notation "m ;; k" := (bind m (fun _ => k))
  (at level 61, right associativity).

Fixpoint for_each {A} (f : A -> M unit) (l : list A) : M unit :=
  match l with
  | [] => ret tt
  | a :: rest => f a ;; for_each f rest
  end.

(** *** The runtime's operations *)

Definition emit (e : Effect) : M unit :=
  fun s => (Normal tt, set_log (log s ++ [e]) s).

(** Issuing a remote call. *)
Definition call (r : Request) : M unit := emit (Call r).

(** [await p] for a promise that settles as [p]. *)
Definition await {A} (p : Settled A) : M A :=
  match p with
  | Fulfilled v => ret v
  | Rejected e => throw e
  end.

(** How [Promise.all] settles: fulfilled when every promise is, rejected
    as soon as one is (here: with the reason of the first rejected promise
    of the array; which one rejects first in time is not modelled). *)
Fixpoint Promise_all {A} (ps : list (Settled A)) : Settled (list A) :=
  match ps with
  | [] => Fulfilled []
  | Fulfilled v :: rest =>
      match Promise_all rest with
      | Fulfilled vs => Fulfilled (v :: vs)
      | Rejected e => Rejected e
      end
  | Rejected e :: _ => Rejected e
  end.

(** [clearInterval(handle)]: the timer with this handle, if there is one,
    is no longer active. *)
Definition cancel (handle : option nat) (active : list nat) : list nat :=
  match handle with
  | Some h => remove Nat.eq_dec h active
  | None => active
  end.

Definition clearInterval (handle : option nat) : M unit :=
  active <- get timers ;;
  put set_timers (cancel handle active) ;;
  emit (ClearInterval handle).

(** [setInterval(() => { handleFetchUsers({ mute: true }) }, 3000)], the
    only timer the script installs: a fresh handle becomes active. *)
Definition setInterval : M nat :=
  h <- get nextHandle ;;
  active <- get timers ;;
  put set_timers (active ++ [h]) ;;
  put set_nextHandle (S h) ;;
  emit (SetInterval h) ;;
  ret h.

Definition Toast_success (message : jsstring) : M unit :=
  emit (ToastSuccess message).

Definition console_error (message : jsstring) (e : Error) : M unit :=
  emit (ConsoleError message e).

(** The toast text of both delete actions. *)
Definition msg_deleted : jsstring := [21024; 38500; 25104; 21151]%N.

(** *** [handleFetchUsers] *)

(** [options?: { mute?: boolean }]. *)
Record Options : Type := { mute : option bool }.

(** [options?.mute] as a condition. *)
Definition options_mute (options : option Options) : bool :=
  match options with
  | Some o => match mute o with Some b => b | None => false end
  | None => false
  end.

Definition new_Fuse (docs : list User) : Fuse.t :=
  {| Fuse.docs := docs;
     Fuse.keys := [js "spec.displayName"; js "metadata.name"; js "spec.email"];
     Fuse.useExtendedSearch := true |}.

(** [items.filter((user) => !!user.metadata.deletionTimestamp)]. *)
Definition deletedUsers (l : UserList) : list User :=
  filter (fun user => truthy (deletionTimestamp (metadata user))) (items l).

(** The statements of [handleFetchUsers] up to its [await]: none of them
    can throw, so it makes no difference that they stand inside the [try]. *)
Definition handleFetchUsers_request (options : option Options) : M unit :=
  handle <- get refreshInterval ;;
  clearInterval handle ;;
  when (negb (options_mute options)) (put set_loading true) ;;
  us <- get users ;;
  call (listv1alpha1User (page us) (size us)).

(** [handleFetchUsers] from its [await] on, once the call has settled as
    [response]. *)
Definition handleFetchUsers_response (response : Settled UserList) : M unit :=
  try_catch_finally
    (data <- await response ;;
     put set_users data ;;
     put set_fuse (Some (new_Fuse (items data))) ;;
     us <- get users ;;
     when (negb (List.length (deletedUsers us) =? 0))
       (h <- setInterval ;; put set_refreshInterval (Some h)))
    (fun e => console_error (js "Failed to fetch users") e)
    (put set_selectedUser None ;;
     put set_loading false).

(** [handleFetchUsers] run without anything else happening while it
    waits. *)
Definition handleFetchUsers (options : option Options)
  (response : Settled UserList) : M unit :=
  handleFetchUsers_request options ;;
  handleFetchUsers_response response.

(** The effects of one fetch, from a state with page [us], timer handle
    [handle] and next handle [next]. *)
Definition fetch_effects (us : UserList) (handle : option nat) (next : nat)
  (response : Settled UserList) : list Effect :=
  [ClearInterval handle; Call (listv1alpha1User (page us) (size us))]
  ++ match response with
     | Fulfilled data =>
         match deletedUsers data with
         | [] => []
         | _ :: _ => [SetInterval next]
         end
     | Rejected e => [ConsoleError (js "Failed to fetch users") e]
     end.

(** *** [searchResults] *)

Section Search.
(** [fuse.search(keyword)], of the fuse.js library. *)
Variable Fuse_search : Fuse.t -> jsstring -> list Fuse.Result.

Definition searchResults (s : State) : list User :=
  match fuse s with
  | None => items (users s)                                     (* !fuse *)
  | Some index =>
      if negb (truthy_string (keyword s)) then items (users s)  (* !keyword.value *)
      else map Fuse.item (Fuse_search index (keyword s))
  end.
End Search.

(** *** Pagination and deletion *)

Definition handlePaginationChange (page size : Z)
  (response : Settled UserList) : M unit :=
  us <- get users ;;
  put set_users (with_page_size page size us) ;;
  handleFetchUsers None response.

(** [handleDelete(user)] opens a confirmation dialog and does nothing else;
    this is the [onConfirm] callback it passes.  [removed] is how the
    remove call settles, [listed] how the list call of the re-fetch does. *)
Definition handleDelete_onConfirm (user : User) (removed : Settled unit)
  (listed : Settled UserList) : M unit :=
  try_catch_finally
    (call (deletev1alpha1User (name (metadata user))) ;;
     await removed ;;
     Toast_success msg_deleted)
    (fun e => console_error (js "Failed to delete user") e)
    (handleFetchUsers None listed).

(** [userStore.currentUser?.metadata.name]. *)
Definition currentUserName (s : State) : option jsstring :=
  match currentUser s with
  | Some u => Some (name (metadata u))
  | None => None
  end.

(** [selectedUserNames.value.filter((name) => name != currentUser?.metadata.name)]. *)
Definition userNamesToDelete (s : State) : list jsstring :=
  filter (fun name => loose_neq name (currentUserName s)) (selectedUserNames s).

(** [selectedUserNames.value.length = 0]: the array is emptied in place.
    The ref is not assigned, so the watcher below, which has no [deep]
    option, does not run. *)
Definition truncate_selectedUserNames : M unit :=
  put set_selectedUserNames [].

(** The [onConfirm] callback of the dialog [handleDeleteInBatch()] opens;
    [removed name] is how the remove call for [name] settles.  [map] issues
    every call before [Promise.all] is awaited. *)
Definition handleDeleteInBatch_onConfirm (removed : jsstring -> Settled unit)
  (listed : Settled UserList) : M unit :=
  names <- get userNamesToDelete ;;
  for_each (fun name => call (deletev1alpha1User name)) names ;;
  await (Promise_all (map removed names)) ;;
  handleFetchUsers None listed ;;
  truncate_selectedUserNames ;;
  Toast_success msg_deleted.

(** *** The selection *)

(** The callback of [watch(selectedUserNames, ...)]. *)
Definition watch_selectedUserNames (newValue : list jsstring) : M unit :=
  us <- get users ;;
  put set_checkedAll (List.length newValue =? List.length (items us)).

(** [selectedUserNames.value = v], and the run of the watcher it causes. *)
Definition assign_selectedUserNames (v : list jsstring) : M unit :=
  put set_selectedUserNames v ;;
  watch_selectedUserNames v.

Definition checkSelection (s : State) (user : User) : bool :=
  strict_eq (name (metadata user))
    (match selectedUser s with
     | Some u => Some (name (metadata u))
     | None => None
     end)
  || includes (selectedUserNames s) (name (metadata user)).

Definition handleCheckAllChange (checked : bool) : M unit :=
  if checked then
    us <- get users ;;
    assign_selectedUserNames (map (fun user => name (metadata user)) (items us))
  else truncate_selectedUserNames.

(** A change of the check-all box, [v-model="checkedAll"
    @change="handleCheckAllChange"]: the model is written, then the
    handler runs. *)
Definition checkAll_change (checked : bool) : M unit :=
  put set_checkedAll checked ;;
  handleCheckAllChange checked.

Fixpoint remove_first (x : jsstring) (l : list jsstring) : list jsstring :=
  match l with
  | [] => []
  | y :: rest => if jsstring_eqb x y then rest else y :: remove_first x rest
  end.

(** A change of the box of one row, [v-model="selectedUserNames"
    :value="user.metadata.name"]: Vue assigns a new array with the
    name appended, or with its first occurrence removed. *)
Definition row_change (name : jsstring) (checked : bool) : M unit :=
  names <- get selectedUserNames ;;
  let found := includes names name in
  if checked && negb found then assign_selectedUserNames (names ++ [name])
  else if negb checked && found then assign_selectedUserNames (remove_first name names)
  else ret tt.

(** *** Modals, roles and the hooks *)

Definition handleOpenCreateModal (user : User) : M unit :=
  put set_selectedUser (Some user) ;;
  put set_editingModal true.

Definition onEditingModalClose (listed : Settled UserList) : M unit :=
  put set_routeQueryAction None ;;
  handleFetchUsers None listed.

Definition handleOpenPasswordChangeModal (user : User) : M unit :=
  put set_selectedUser (Some user) ;;
  put set_passwordChangeModal true.

Definition handleOpenGrantPermissionModal (user : User) : M unit :=
  put set_selectedUser (Some user) ;;
  put set_grantPermissionModal true.

(** [getRoles]: the value of [JSON.parse], or the [SyntaxError] it throws
    (nothing catches it). *)
Definition getRoles (user : User) : JSON.parse_result JSON.json :=
  JSON.parse (or_default (annotation ROLE_NAMES (metadata user)) (js "[]")).

(** The two [onMounted] hooks: the fetch of the first is not awaited, so
    the second runs before the list call settles. *)
Definition onMounted (listed : Settled UserList) : M unit :=
  handleFetchUsers_request None ;;
  action <- get routeQueryAction ;;
  when (truthy action && strict_eq (js "create") action)
    (put set_editingModal true) ;;
  handleFetchUsers_response listed.

Definition onUnmounted : M unit :=
  handle <- get refreshInterval ;;
  clearInterval handle.

(** *** What the spec says of the state *)

(** The names of the users of the current page. *)
Definition pageNames (s : State) : list jsstring :=
  map (fun user => name (metadata user)) (items (users s)).

(** [checkedAll] tells whether as many names are selected as the page has
    items. *)
Definition checkedAll_agrees (s : State) : Prop :=
  checkedAll s = (List.length (selectedUserNames s) =? List.length (items (users s))).


End View.

(* ================================================================== *)
(** ** Handlers that overlap *)
(* ================================================================== *)

(** [handleFetchUsers] gives up control at its [await]: until the list call
    settles, other handlers and timer callbacks run, among them further
    calls of [handleFetchUsers].  What the function does after the [await]
    uses none of its locals but the response, so the calls that are waiting
    need only be counted. *)
Module Loop.
Import Api View.

Record World : Type := {
  view : State;
  inflight : nat
}.

Inductive Event : Type :=
| Invoke (options : option Options)  (* something calls handleFetchUsers *)
| Settle (response : Settled UserList)  (* a list call settles *)
| Tick (handle : nat)  (* the interval with this handle fires *)
| Unmount.  (* the view is torn down *)

Definition start (me : option User) (action : option jsstring) : World :=
  {| view := initial me action; inflight := 0 |}.

Definition step (e : Event) (w : World) : option World :=
  match e with
  | Invoke options =>
      Some {| view := exec (handleFetchUsers_request options) (view w);
              inflight := S (inflight w) |}
  | Settle response =>
      match inflight w with
      | O => None
      | S n =>
          Some {| view := exec (handleFetchUsers_response response) (view w);
                  inflight := n |}
      end
  | Tick handle =>
      if existsb (Nat.eqb handle) (timers (view w)) then
        Some {| view := exec (handleFetchUsers_request (Some {| mute := Some true |}))
                          (view w);
                inflight := S (inflight w) |}
      else None
  | Unmount =>
      Some {| view := exec onUnmounted (view w); inflight := inflight w |}
  end.

Fixpoint run (events : list Event) (w : World) : option World :=
  match events with
  | [] => Some w
  | e :: rest =>
      match step e w with
      | Some w' => run rest w'
      | None => None
      end
  end.


End Loop.

(* ================================================================== *)
(** ** The template and what a user can do with it *)
(* ================================================================== *)

Module Session.
Import Api View.

(** [v-if="!selectedUserNames.length"]: the keyword field is shown; when it
    is not, the delete button of the selection is shown in its place. *)
Definition showsSearchBox (s : State) : bool :=
  List.length (selectedUserNames s) =? 0.

(** [v-if="userStore.currentUser?.metadata.name !== user.metadata.name"]:
    the row of [user] offers to grant roles and to delete. *)
Definition showsRowActions (s : State) (user : User) : bool :=
  negb (strict_eq (name (metadata user)) (currentUserName s)).

(** [v-if="user.metadata.deletionTimestamp"]: the row shows the marker of a
    deletion in progress. *)
Definition showsDeleting (user : User) : bool :=
  truthy (deletionTimestamp (metadata user)).

(** What happens to the view: the hooks, the events of the template with
    the handlers bound to them, a confirmed dialog, and the two halves of a
    fetch that does not run in one piece. *)
Inductive Action : Type :=
| Mount (listed : Settled UserList)
| Unmounted
| Fetch (options : option Options) (listed : Settled UserList)
| FetchRequest (options : option Options)
| FetchResponse (listed : Settled UserList)
| Paginate (page size : Z) (listed : Settled UserList)
| TypeKeyword (text : jsstring)
| CheckAll (checked : bool)
| CheckRow (name : jsstring) (checked : bool)
| NewUser
| OpenEdit (user : User)
| OpenPassword (user : User)
| OpenGrant (user : User)
| CloseEdit (listed : Settled UserList)
| ConfirmDelete (user : User) (removed : Settled unit) (listed : Settled UserList)
| ConfirmDeleteInBatch (removed : jsstring -> Settled unit)
    (listed : Settled UserList).

(** The actions the template offers only on rows of other users. *)
Definition offered (a : Action) (s : State) : bool :=
  match a with
  | OpenGrant user => showsRowActions s user
  | ConfirmDelete user _ _ => showsRowActions s user
  | _ => true
  end.

Definition perform (a : Action) : M unit :=
  match a with
  | Mount listed => onMounted listed
  | Unmounted => onUnmounted
  | Fetch options listed => handleFetchUsers options listed
  | FetchRequest options => handleFetchUsers_request options
  | FetchResponse listed => handleFetchUsers_response listed
  | Paginate page size listed => handlePaginationChange page size listed
  | TypeKeyword text => put set_keyword text        (* v-model="keyword" *)
  | CheckAll checked => checkAll_change checked
  | CheckRow name checked => row_change name checked
  | NewUser => put set_editingModal true            (* @click="editingModal = true" *)
  | OpenEdit user => handleOpenCreateModal user
  | OpenPassword user => handleOpenPasswordChangeModal user
  | OpenGrant user => handleOpenGrantPermissionModal user
  | CloseEdit listed => onEditingModalClose listed
  | ConfirmDelete user removed listed => handleDelete_onConfirm user removed listed
  | ConfirmDeleteInBatch removed listed =>
      handleDeleteInBatch_onConfirm removed listed
  end.

(** The state after a sequence of actions, each offered when it is taken.
    An error that escapes a handler ends that handler only. *)
Fixpoint run (actions : list Action) (s : State) : option State :=
  match actions with
  | [] => Some s
  | a :: rest =>
      if offered a s then run rest (exec (perform a) s) else None
  end.

(** The index, once built, is the index of the items of the page shown. *)
Definition fuse_synced (s : State) : Prop :=
  match fuse s with
  | Some index => index = new_Fuse (items (users s))
  | None => True
  end.

(** The effects of the second half of a fetch. *)
Definition response_effects (next : nat) (listed : Settled UserList) : list Effect :=
  match listed with
  | Fulfilled data =>
      match deletedUsers data with
      | [] => []
      | _ :: _ => [SetInterval next]
      end
  | Rejected e => [ConsoleError (js "Failed to fetch users") e]
  end.

(** The effects of an action taken in state [s]. *)
Definition effects_of (a : Action) (s : State) : list Effect :=
  let fetch us listed :=
    fetch_effects us (refreshInterval s) (nextHandle s) listed in
  match a with
  | Mount listed | Fetch _ listed | CloseEdit listed => fetch (users s) listed
  | Paginate p sz listed => fetch (with_page_size p sz (users s)) listed
  | Unmounted => [ClearInterval (refreshInterval s)]
  | FetchRequest _ =>
      [ClearInterval (refreshInterval s);
       Call (listv1alpha1User (page (users s)) (size (users s)))]
  | FetchResponse listed => response_effects (nextHandle s) listed
  | ConfirmDelete user removed listed =>
      [Call (deletev1alpha1User (name (metadata user)));
       match removed with
       | Fulfilled _ => ToastSuccess msg_deleted
       | Rejected e => ConsoleError (js "Failed to delete user") e
       end]
      ++ fetch (users s) listed
  | ConfirmDeleteInBatch removed listed =>
      map (fun n => Call (deletev1alpha1User n)) (userNamesToDelete s)
      ++ (if forallb fulfilled (map removed (userNamesToDelete s))
          then fetch (users s) listed ++ [ToastSuccess msg_deleted]
          else [])
  | TypeKeyword _ | CheckAll _ | CheckRow _ _ | NewUser
  | OpenEdit _ | OpenPassword _ | OpenGrant _ => []
  end.

(** What one step does to the signed-in user, to the index and to the
    effects: [added] are the effects of the step. *)
Definition step_summary (s s' : State) (added : list Effect) : Prop :=
  currentUser s' = currentUser s
  /\ (fuse_synced s -> fuse_synced s')
  /\ log s' = log s ++ added.

End Session.

(* ================================================================== *)
(** ** Sample data *)
(* ================================================================== *)

Module Sample.
Import Api View.

(** A user with the given name; [deleting] gives it a deletion timestamp. *)
Definition user (n : jsstring) (deleting : bool) : User :=
  {| metadata :=
       {| name := n;
          annotations := None;
          deletionTimestamp :=
            if deleting then Some (js "2022-09-01T08:00:00Z") else None;
          creationTimestamp := Some (js "2022-08-01T08:00:00Z") |};
     spec :=
       {| displayName := n; avatar := None; email := n ++ js "@example.com" |} |}.

(** A user whose annotations hold [value] under [ROLE_NAMES]. *)
Definition user_with_roles (n : jsstring) (value : jsstring) : User :=
  {| metadata :=
       {| name := n;
          annotations := Some [(ROLE_NAMES, value)];
          deletionTimestamp := None;
          creationTimestamp := Some (js "2022-08-01T08:00:00Z") |};
     spec :=
       {| displayName := n; avatar := None; email := n ++ js "@example.com" |} |}.

(** Page [p], of size [sz], holding [us], out of [n] users. *)
Definition pageOf (p sz n : Z) (us : list User) : UserList :=
  {| page := p; size := sz; total := n; items := us;
     first := (p =? 1)%Z; last := (n <=? p * sz)%Z;
     hasNext := negb (n <=? p * sz)%Z; hasPrevious := negb (p =? 1)%Z;
     totalPages := (n + sz - 1) / sz |}.

Definition alice : User := user (js "alice") false.
Definition bob : User := user (js "bob") false.
Definition carol : User := user (js "carol") false.
Definition admin : User := user (js "admin") false.
Definition bob_deleting : User := user (js "bob") true.

Definition boom : Error := RemoteError (js "500 Internal Server Error").

(** The text [["Editor","Guest"]]. *)
Definition editor_guest : jsstring :=
  js "[" ++ [JSON.c_quote] ++ js "Editor" ++ [JSON.c_quote] ++ js ","
     ++ [JSON.c_quote] ++ js "Guest" ++ [JSON.c_quote] ++ js "]".

Definition no_search (_ : Fuse.t) (_ : jsstring) : list Fuse.Result := [].

End Sample.

(* ################################################################## *)
(** * Properties *)
(* ################################################################## *)

(* ================================================================== *)
(** ** Facts about strings *)
(* ================================================================== *)

Module JSFacts.

Lemma jsstring_eqb_eq (a b : jsstring) : jsstring_eqb a b = true <-> a = b.
Proof.
  unfold jsstring_eqb. destruct (list_eq_dec N.eq_dec a b); split; congruence.
Qed.

Lemma jsstring_eqb_refl (a : jsstring) : jsstring_eqb a a = true.
Proof. now apply jsstring_eqb_eq. Qed.

Lemma jsstring_eqb_neq (a b : jsstring) : jsstring_eqb a b = false <-> a <> b.
Proof.
  unfold jsstring_eqb. destruct (list_eq_dec N.eq_dec a b); split; congruence.
Qed.

Lemma includes_In (l : list jsstring) (x : jsstring) :
  includes l x = true <-> In x l.
Proof.
  unfold includes. rewrite existsb_exists. split.
  - intros [y [Hin Heq]]. apply jsstring_eqb_eq in Heq. now subst.
  - intros Hin. exists x. split; [assumption | apply jsstring_eqb_refl].
Qed.

Lemma loose_neq_true (a : jsstring) (b : option jsstring) :
  loose_neq a b = true <-> b <> Some a.
Proof.
  destruct b as [s|]; simpl.
  - rewrite negb_true_iff, jsstring_eqb_neq. split; congruence.
  - split; [discriminate | reflexivity].
Qed.

Lemma or_default_falsy (v : option jsstring) (d : jsstring) :
  truthy v = false -> or_default v d = d.
Proof. destruct v as [[|c s]|]; simpl; congruence. Qed.

Lemma or_default_truthy (s d : jsstring) :
  s <> [] -> or_default (Some s) d = s.
Proof. destruct s; simpl; congruence. Qed.

End JSFacts.

(* ================================================================== *)
(** ** [JSON.parse] always answers *)
(* ================================================================== *)

Module JSONFacts.
Import JSON.

Lemma skip_ws_length (s : jsstring) : List.length (skip_ws s) <= List.length s.
Proof.
  induction s as [|c r IH]; simpl; [lia|].
  destruct (is_ws c); simpl; lia.
Qed.

Lemma skip_ws_cons (s r : jsstring) (c : N) :
  skip_ws s = c :: r -> List.length r < List.length s.
Proof.
  intros H. pose proof (skip_ws_length s) as L. rewrite H in L. simpl in L. lia.
Qed.

Lemma span_digits_length (s ds r : jsstring) :
  span_digits s = (ds, r) -> List.length r <= List.length s.
Proof.
  revert ds r. induction s as [|c t IH]; simpl; intros ds r H.
  - inversion H; subst; simpl; lia.
  - destruct (is_digit c).
    + destruct (span_digits t) as [ds' r'] eqn:E. inversion H; subst.
      specialize (IH _ _ eq_refl). lia.
    + inversion H; subst; simpl; lia.
Qed.

Lemma strip_prefix_length (p s r : jsstring) :
  strip_prefix p s = Some r -> List.length r <= List.length s.
Proof.
  revert s r. induction p as [|a p IH]; intros s r H; simpl in H.
  - inversion H; subst; lia.
  - destruct s as [|b s]; [discriminate|].
    destruct (a =? b)%N; [|discriminate].
    apply IH in H. simpl. lia.
Qed.

Lemma parse_string_body_length (s acc str r : jsstring) :
  parse_string_body s acc = Some (str, r) -> List.length r < List.length s.
Proof.
  remember (List.length s) as n eqn:Hn.
  revert s acc Hn. induction n as [n IH] using lt_wf_ind.
  intros s acc Hn H. destruct s as [|c t]; [discriminate|].
  simpl in H, Hn.
  destruct (c =? c_quote)%N.
  { inversion H; subst; lia. }
  destruct (c =? c_backslash)%N.
  - destruct t as [|e r1]; [discriminate|].
    destruct (e =? 117)%N.
    + destruct r1 as [|h1 [|h2 [|h3 [|h4 r2]]]]; try discriminate.
      destruct (hex4 h1 h2 h3 h4); [|discriminate].
      eapply IH in H; [| | reflexivity]; subst; simpl in *; lia.
    + destruct (simple_escape e); [|discriminate].
      eapply IH in H; [| | reflexivity]; subst; simpl in *; lia.
  - destruct (c <? 32)%N; [discriminate|].
    eapply IH in H; [| | reflexivity]; subst; simpl in *; lia.
Qed.

Lemma number_sign_length (s sg r : jsstring) :
  number_sign s = (sg, r) -> List.length r <= List.length s.
Proof.
  destruct s as [|c t]; simpl; intros H.
  - inversion H; subst; simpl; lia.
  - destruct (c =? c_minus)%N; inversion H; subst; simpl; lia.
Qed.

Lemma number_int_length (s ds r : jsstring) :
  number_int s = Some (ds, r) -> List.length r < List.length s.
Proof.
  destruct s as [|d t]; simpl; intros H; [discriminate|].
  destruct (negb (is_digit d)); [discriminate|].
  destruct (d =? c_0)%N.
  - inversion H; subst; lia.
  - destruct (span_digits t) as [ds' rest] eqn:E. inversion H; subst.
    apply span_digits_length in E. lia.
Qed.

Lemma number_frac_length (s ds r : jsstring) :
  number_frac s = Some (ds, r) -> List.length r <= List.length s.
Proof.
  destruct s as [|c t]; simpl; intros H.
  - inversion H; subst; simpl; lia.
  - destruct (c =? c_dot)%N.
    + destruct (span_digits t) as [[|d ds'] rest] eqn:E; [discriminate|].
      inversion H; subst. apply span_digits_length in E. lia.
    + inversion H; subst; simpl; lia.
Qed.

Lemma exponent_sign_length (s sg r : jsstring) :
  exponent_sign s = (sg, r) -> List.length r <= List.length s.
Proof.
  destruct s as [|g t]; simpl; intros H.
  - inversion H; subst; simpl; lia.
  - destruct ((g =? c_plus)%N || (g =? c_minus)%N);
      inversion H; subst; simpl; lia.
Qed.

Lemma number_exp_length (s ds r : jsstring) :
  number_exp s = Some (ds, r) -> List.length r <= List.length s.
Proof.
  destruct s as [|c t]; simpl; intros H.
  - inversion H; subst; simpl; lia.
  - destruct ((c =? c_e)%N || (c =? c_E)%N).
    + destruct (exponent_sign t) as [sg r1] eqn:E.
      apply exponent_sign_length in E.
      destruct (span_digits r1) as [[|d ds'] rest] eqn:E'; [discriminate|].
      inversion H; subst. apply span_digits_length in E'. lia.
    + inversion H; subst; simpl; lia.
Qed.

Lemma parse_number_length (s lexeme r : jsstring) :
  parse_number s = Some (lexeme, r) -> List.length r < List.length s.
Proof.
  unfold parse_number. intros H.
  destruct (number_sign s) as [sg s1] eqn:E1.
  destruct (number_int s1) as [[int s2]|] eqn:E2; [|discriminate].
  destruct (number_frac s2) as [[fr s3]|] eqn:E3; [|discriminate].
  destruct (number_exp s3) as [[ex s4]|] eqn:E4; [|discriminate].
  inversion H; subst.
  apply number_sign_length in E1. apply number_int_length in E2.
  apply number_frac_length in E3. apply number_exp_length in E4. lia.
Qed.

Ltac crunch H :=
  repeat match type of H with
  | POk _ = POk _ => inversion H; subst; clear H
  | PSyntaxError = POk _ => discriminate H
  | POutOfFuel = POk _ => discriminate H
  | context [match skip_ws ?x with _ => _ end] =>
      let E := fresh "Ews" in
      destruct (skip_ws x) eqn:E; [|apply skip_ws_cons in E]
  | context [match parse_string_body ?x ?a with _ => _ end] =>
      let E := fresh "Estr" in
      destruct (parse_string_body x a) as [[? ?]|] eqn:E;
      [apply parse_string_body_length in E|]
  | context [match strip_prefix ?p ?x with _ => _ end] =>
      let E := fresh "Epre" in
      destruct (strip_prefix p x) eqn:E; [apply strip_prefix_length in E|]
  | context [match parse_number ?x with _ => _ end] =>
      let E := fresh "Enum" in
      destruct (parse_number x) as [[? ?]|] eqn:E;
      [apply parse_number_length in E|]
  | context [if ?b then _ else _] => destruct b
  end.

Lemma parse_lengths (fuel : nat) :
  (forall s v r, parse_value fuel s = POk (v, r) -> List.length r < List.length s)
  /\ (forall s acc v r,
        parse_elements fuel s acc = POk (v, r) -> List.length r < List.length s)
  /\ (forall s acc v r,
        parse_members fuel s acc = POk (v, r) -> List.length r < List.length s).
Proof.
  induction fuel as [|fuel (IHv & IHe & IHm)].
  - repeat split; intros; discriminate.
  - repeat split.
    + intros s v r H. cbn [parse_value] in H. crunch H; simpl in *; try lia.
      all: first [apply IHm in H | apply IHe in H]; lia.
    + intros s acc v r H. cbn [parse_elements] in H.
      destruct (parse_value fuel s) as [[v0 r0]| |] eqn:Ev; try discriminate.
      apply IHv in Ev. crunch H; simpl in *; try lia.
      all: apply IHe in H; lia.
    + intros s acc v r H. cbn [parse_members] in H. crunch H; simpl in *; try lia.
      all: destruct (parse_value fuel _) as [[v0 r0]| |] eqn:Ev; try discriminate.
      all: apply IHv in Ev; crunch H; simpl in *; try lia.
      all: apply IHm in H; lia.
Qed.

Lemma parse_value_length (fuel : nat) (s : jsstring) (v : json) (r : jsstring) :
  parse_value fuel s = POk (v, r) -> List.length r < List.length s.
Proof. apply parse_lengths. Qed.

Ltac fuel_crunch :=
  repeat match goal with
  | |- PSyntaxError <> POutOfFuel => discriminate
  | |- POk _ <> POutOfFuel => discriminate
  | |- context [match skip_ws ?x with _ => _ end] =>
      let E := fresh "Ews" in
      destruct (skip_ws x) eqn:E; [|apply skip_ws_cons in E]
  | |- context [match parse_string_body ?x ?a with _ => _ end] =>
      let E := fresh "Estr" in
      destruct (parse_string_body x a) as [[? ?]|] eqn:E;
      [apply parse_string_body_length in E|]
  | |- context [match strip_prefix ?p ?x with _ => _ end] =>
      destruct (strip_prefix p x)
  | |- context [match parse_number ?x with _ => _ end] =>
      destruct (parse_number x) as [[? ?]|]
  | |- context [if ?b then _ else _] => destruct b
  end.

Lemma parse_fuel (fuel : nat) :
  (forall s, 2 * List.length s + 1 <= fuel -> parse_value fuel s <> POutOfFuel)
  /\ (forall s acc,
        2 * List.length s + 2 <= fuel -> parse_elements fuel s acc <> POutOfFuel)
  /\ (forall s acc,
        2 * List.length s + 2 <= fuel -> parse_members fuel s acc <> POutOfFuel).
Proof.
  induction fuel as [|fuel (IHv & IHe & IHm)].
  - repeat split; intros; lia.
  - repeat split.
    + intros s Hf. cbn [parse_value]. fuel_crunch.
      all: first [apply IHm | apply IHe]; simpl in *; lia.
    + intros s acc Hf. cbn [parse_elements].
      pose proof (IHv s ltac:(lia)) as Hv.
      destruct (parse_value fuel s) as [[v0 r0]| |] eqn:Ev; try congruence.
      apply parse_value_length in Ev. fuel_crunch.
      apply IHe; simpl in *; lia.
    + intros s acc Hf. cbn [parse_members]. fuel_crunch.
      all: match goal with
           | |- context [parse_value ?f ?x] =>
               pose proof (IHv x ltac:(simpl in *; lia)) as Hv;
               destruct (parse_value f x) as [[v0 r0]| |] eqn:Ev;
               try congruence
           end.
      all: apply parse_value_length in Ev; fuel_crunch.
      all: apply IHm; simpl in *; lia.
Qed.

(** [JSON.parse] never gives up for lack of fuel: it returns a value or
    raises a [SyntaxError]. *)
Theorem parse_total (text : jsstring) : parse text <> POutOfFuel.
Proof.
  unfold parse, parse_with, fuel_for.
  pose proof (proj1 (parse_fuel (2 * List.length text + 1)) text (le_n _)) as H.
  destruct (parse_value _ text) as [[v r]| |]; try congruence.
  destruct (skip_ws r); discriminate.
Qed.
End JSONFacts.

(* ================================================================== *)
(** ** Search *)
(* ================================================================== *)

Module SearchFacts.
Import Api View.

(** C8.  With an empty keyword, or before any index has been built,
    [searchResults] is the item sequence of the current page, unchanged and
    in its order.  It is a function of the state alone: it returns a list
    and has no effect, so it issues no call. *)
Theorem searchResults_unfiltered
  (Fuse_search : Fuse.t -> jsstring -> list Fuse.Result) (s : State) :
  fuse s = None \/ keyword s = [] ->
  searchResults Fuse_search s = items (users s).
Proof.
  unfold searchResults. intros [H | H]; rewrite H.
  - reflexivity.
  - destruct (fuse s); reflexivity.
Qed.

(** After the first fetch the index exists and the keyword is still empty:
    the search shows the page as fetched. *)
Lemma searchResults_unfiltered_witness :
  let s := exec (onMounted (Fulfilled (Sample.pageOf 1 20 2 [Sample.alice; Sample.bob])))
             (initial None None) in
  (fuse s <> None /\ keyword s = [])
  /\ searchResults Sample.no_search s = [Sample.alice; Sample.bob].
Proof.
  split.
  - split; [discriminate | reflexivity].
  - apply (searchResults_unfiltered Sample.no_search). right. reflexivity.
Defined.

End SearchFacts.

(* ================================================================== *)
(** ** Roles *)
(* ================================================================== *)

Module RolesFacts.
Import Api View JSON.

(** What [getRoles] parses: the annotation when it is a non-empty string,
    the text of the empty array otherwise. *)
Lemma getRoles_parses (user : User) :
  getRoles user =
  match annotation ROLE_NAMES (metadata user) with
  | Some (c :: v) => JSON.parse (c :: v)
  | Some [] | None => JSON.parse (js "[]")
  end.
Proof.
  unfold getRoles. destruct (annotation ROLE_NAMES (metadata user)) as [[|c v]|];
    reflexivity.
Qed.

Lemma parse_empty_array : JSON.parse (js "[]") = POk (JArray []).
Proof. reflexivity. Qed.

(** C9, as the code has it.  The annotation ["Editor","Guest"] decodes to
    the two role names in order; an absent annotation decodes to the empty
    list; a non-empty annotation value decodes to whatever [JSON.parse]
    makes of it, so that a malformed non-empty value raises the
    [SyntaxError], with no fallback. *)
Theorem getRoles_decode (user : User) (v : jsstring) :
  getRoles (Sample.user_with_roles (js "alice") Sample.editor_guest)
  = POk (JArray [JString (js "Editor"); JString (js "Guest")])
  /\ (annotation ROLE_NAMES (metadata user) = None ->
      getRoles user = POk (JArray []))
  /\ (annotation ROLE_NAMES (metadata user) = Some v -> v <> [] ->
      getRoles user = JSON.parse v)
  /\ (annotation ROLE_NAMES (metadata user) = Some v -> v <> [] ->
      JSON.parse v = PSyntaxError -> getRoles user = PSyntaxError).
Proof.
  split; [reflexivity|].
  rewrite getRoles_parses.
  split; [|split].
  - intros ->. apply parse_empty_array.
  - intros -> Hv. destruct v; [contradiction | reflexivity].
  - intros -> Hv Hbad. destruct v; [contradiction | exact Hbad].
Qed.

(** An unquoted role name is malformed, and [getRoles] raises on it. *)
Lemma getRoles_decode_witness :
  let bad := js "[Editor]" in
  let user := Sample.user_with_roles (js "alice") bad in
  (annotation ROLE_NAMES (metadata user) = Some bad /\ bad <> []
   /\ JSON.parse bad = PSyntaxError)
  /\ getRoles user = PSyntaxError.
Proof.
  split.
  - repeat split; [discriminate].
  - apply (getRoles_decode (Sample.user_with_roles (js "alice") (js "[Editor]"))
             (js "[Editor]"));
      [reflexivity | discriminate | reflexivity].
Defined.

(** C9 as stated fails: the empty string is malformed JSON, [JSON.parse]
    raises on it, yet [getRoles] of a user whose annotation is the empty
    string raises nothing and returns the empty list. *)
Lemma getRoles_malformed_empty_string :
  let user := Sample.user_with_roles (js "alice") [] in
  annotation ROLE_NAMES (metadata user) = Some []
  /\ JSON.parse [] = PSyntaxError
  /\ getRoles user = POk (JArray []).
Proof. repeat split. Qed.

(** C10.  An annotation that is present and the empty string decodes to the
    empty list, without an error, as an absent annotation does. *)
Theorem getRoles_empty_annotation (user : User) :
  annotation ROLE_NAMES (metadata user) = Some [] ->
  getRoles user = POk (JArray [])
  /\ (forall other : User,
        annotation ROLE_NAMES (metadata other) = None ->
        getRoles user = getRoles other).
Proof.
  intros H. split.
  - rewrite getRoles_parses, H. apply parse_empty_array.
  - intros other Hother. rewrite !getRoles_parses, H, Hother. reflexivity.
Qed.

(** A user whose role annotation is the empty string, next to a user with no
    annotations at all. *)
Lemma getRoles_empty_annotation_witness :
  let user := Sample.user_with_roles (js "alice") [] in
  annotation ROLE_NAMES (metadata user) = Some []
  /\ getRoles user = POk (JArray [])
  /\ getRoles user = getRoles Sample.alice.
Proof.
  pose proof (getRoles_empty_annotation (Sample.user_with_roles (js "alice") [])
                eq_refl) as [H1 H2].
  split; [reflexivity | split].
  - exact H1.
  - apply H2. reflexivity.
Defined.

End RolesFacts.

(* ================================================================== *)
(** ** Running statements *)
(* ================================================================== *)

Module ViewFacts.
Import Api View.

Lemma bind_normal {A B} (m : M A) (k : A -> M B) (s s' : State) (a : A) :
  m s = (Normal a, s') -> bind m k s = k a s'.
Proof. unfold bind. intros ->. reflexivity. Qed.

Lemma bind_throw {A B} (m : M A) (k : A -> M B) (s s' : State) (e : Error) :
  m s = (Throw e, s') -> bind m k s = (Throw e, s').
Proof. unfold bind. intros ->. reflexivity. Qed.

Lemma emit_run (e : Effect) (s : State) :
  emit e s = (Normal tt, set_log (log s ++ [e]) s).
Proof. reflexivity. Qed.

Lemma log_set_log (v : list Effect) (s : State) : log (set_log v s) = v.
Proof. destruct s. reflexivity. Qed.

End ViewFacts.

(* ================================================================== *)
(** ** The list fetch *)
(* ================================================================== *)

Module FetchFacts.
Import Api View.

(** The state after the statements before the [await]. *)
Lemma handleFetchUsers_request_run (options : option Options) (s : State) :
  handleFetchUsers_request options s =
  (Normal tt,
   set_log (log s ++ [ClearInterval (refreshInterval s);
                      Call (listv1alpha1User (page (users s)) (size (users s)))])
     (set_loading (if options_mute options then loading s else true)
        (set_timers (cancel (refreshInterval s) (timers s)) s))).
Proof.
  destruct s.
  unfold handleFetchUsers_request, clearInterval, call, emit, when, bind, get, put, ret.
  cbn -[cancel].
  destruct (options_mute options); cbn -[cancel]; rewrite <- app_assoc; reflexivity.
Qed.

(** A rejected list call: the error is logged, the cleanup runs. *)
Lemma handleFetchUsers_response_rejected (e : Error) (s : State) :
  handleFetchUsers_response (Rejected e) s =
  (Normal tt,
   set_log (log s ++ [ConsoleError (js "Failed to fetch users") e])
     (set_loading false (set_selectedUser None s))).
Proof. destruct s. reflexivity. Qed.

(** A fulfilled list call: the page and the index are replaced, a timer is
    armed when a user of the page is being deleted, the cleanup runs. *)
Lemma handleFetchUsers_response_fulfilled (data : UserList) (s : State) :
  handleFetchUsers_response (Fulfilled data) s =
  (Normal tt,
   let s1 := set_fuse (Some (new_Fuse (items data))) (set_users data s) in
   set_loading false
     (set_selectedUser None
        (match deletedUsers data with
         | [] => s1
         | _ :: _ =>
             set_log (log s ++ [SetInterval (nextHandle s)])
               (set_refreshInterval (Some (nextHandle s))
                  (set_nextHandle (S (nextHandle s))
                     (set_timers (timers s ++ [nextHandle s]) s1)))
         end))).
Proof.
  destruct s.
  unfold handleFetchUsers_response, try_catch_finally, setInterval, await, emit,
    when, bind, get, put, ret.
  cbn -[deletedUsers]. destruct (deletedUsers data); reflexivity.
Qed.

Lemma handleFetchUsers_run (options : option Options)
  (response : Settled UserList) (s : State) :
  handleFetchUsers options response s =
  handleFetchUsers_response response (exec (handleFetchUsers_request options) s).
Proof.
  unfold handleFetchUsers, bind, exec.
  rewrite handleFetchUsers_request_run. reflexivity.
Qed.

(** Neither half of the fetch lets an error escape. *)
Lemma handleFetchUsers_response_normal (response : Settled UserList) (s : State) :
  completion (handleFetchUsers_response response) s = Normal tt.
Proof.
  unfold completion. destruct response.
  - rewrite handleFetchUsers_response_fulfilled. reflexivity.
  - rewrite handleFetchUsers_response_rejected. reflexivity.
Qed.

Lemma handleFetchUsers_normal (options : option Options)
  (response : Settled UserList) (s : State) :
  completion (handleFetchUsers options response) s = Normal tt.
Proof.
  unfold completion. rewrite handleFetchUsers_run.
  apply handleFetchUsers_response_normal.
Qed.

Lemma handleFetchUsers_log (options : option Options)
  (response : Settled UserList) (s : State) :
  log (exec (handleFetchUsers options response) s) =
  log s ++ fetch_effects (users s) (refreshInterval s) (nextHandle s) response.
Proof.
  unfold exec, fetch_effects. rewrite handleFetchUsers_run. unfold exec.
  rewrite handleFetchUsers_request_run.
  destruct response as [data | e].
  - rewrite handleFetchUsers_response_fulfilled. destruct s. cbn -[deletedUsers].
    destruct (deletedUsers data); cbn; rewrite <- ?app_assoc; reflexivity.
  - rewrite handleFetchUsers_response_rejected. destruct s. cbn.
    rewrite <- app_assoc. reflexivity.
Qed.

(** A fetch touches neither the selection nor the check-all flag. *)
Lemma handleFetchUsers_selection (options : option Options)
  (response : Settled UserList) (s : State) :
  selectedUserNames (exec (handleFetchUsers options response) s) = selectedUserNames s
  /\ checkedAll (exec (handleFetchUsers options response) s) = checkedAll s.
Proof.
  unfold exec. rewrite handleFetchUsers_run. unfold exec.
  rewrite handleFetchUsers_request_run.
  destruct response as [data | e].
  - rewrite handleFetchUsers_response_fulfilled. destruct s. cbn -[deletedUsers].
    destruct (deletedUsers data); split; reflexivity.
  - rewrite handleFetchUsers_response_rejected. destruct s. split; reflexivity.
Qed.

(** C1.  Whatever the options and however the list call settles,
    [handleFetchUsers] completes without throwing, with the loading
    indicator cleared and no active user selected.  When the call is
    rejected the stored page is the one from before the call; when it is
    fulfilled the stored page is the response, whole. *)
Theorem handleFetchUsers_atomic_cleanup
  (options : option Options) (response : Settled UserList) (s : State) :
  let s' := exec (handleFetchUsers options response) s in
  completion (handleFetchUsers options response) s = Normal tt
  /\ loading s' = false
  /\ selectedUser s' = None
  /\ match response with
     | Fulfilled data => users s' = data
     | Rejected _ => users s' = users s
     end.
Proof.
  cbv zeta. split; [apply handleFetchUsers_normal|].
  unfold exec. rewrite handleFetchUsers_run. unfold exec.
  rewrite handleFetchUsers_request_run.
  destruct response as [data | e].
  - rewrite handleFetchUsers_response_fulfilled. destruct s. cbn -[deletedUsers].
    destruct (deletedUsers data); repeat split.
  - rewrite handleFetchUsers_response_rejected. destruct s. repeat split.
Qed.

End FetchFacts.

(* ================================================================== *)
(** ** Deleting one user, deleting the selection *)
(* ================================================================== *)

Module DeleteFacts.
Import Api View ViewFacts.

Lemma Promise_all_fulfilled {A} (ps : list (Settled A)) :
  forallb fulfilled ps = true -> exists vs, Promise_all ps = Fulfilled vs.
Proof.
  induction ps as [|[v | e] ps IH]; simpl; intros H.
  - now exists [].
  - destruct (IH H) as [vs ->]. now exists (v :: vs).
  - discriminate.
Qed.

Lemma Promise_all_rejected {A} (ps : list (Settled A)) :
  forallb fulfilled ps = false ->
  exists e, Promise_all ps = Rejected e /\ In (Rejected e) ps.
Proof.
  induction ps as [|[v | e] ps IH]; simpl; intros H.
  - discriminate.
  - destruct (IH H) as [e [-> Hin]]. exists e. auto.
  - exists e. auto.
Qed.

(** Mapping the names to calls issues one remove call per name, in order,
    and nothing else. *)
Lemma for_each_call_run (names : list jsstring) (s : State) :
  for_each (fun name => call (deletev1alpha1User name)) names s =
  (Normal tt,
   set_log (log s ++ map (fun name => Call (deletev1alpha1User name)) names) s).
Proof.
  revert s. induction names as [|n names IH]; intros s.
  - destruct s. cbn. rewrite app_nil_r. reflexivity.
  - cbn [for_each map]. erewrite bind_normal by apply emit_run.
    rewrite IH. destruct s. cbn. rewrite <- app_assoc. reflexivity.
Qed.

Lemma handleDeleteInBatch_onConfirm_run (removed : jsstring -> Settled unit)
  (listed : Settled UserList) (s : State) :
  let names := userNamesToDelete s in
  let s1 := set_log (log s ++ map (fun name => Call (deletev1alpha1User name)) names) s in
  handleDeleteInBatch_onConfirm removed listed s =
  match Promise_all (map removed names) with
  | Fulfilled _ =>
      (Normal tt,
       set_log (log (exec (handleFetchUsers None listed) s1) ++ [ToastSuccess msg_deleted])
         (set_selectedUserNames [] (exec (handleFetchUsers None listed) s1)))
  | Rejected e => (Throw e, s1)
  end.
Proof.
  cbv zeta. unfold handleDeleteInBatch_onConfirm.
  erewrite bind_normal by reflexivity.
  erewrite bind_normal by apply for_each_call_run.
  destruct (Promise_all (map removed (userNamesToDelete s))) as [vs | e].
  - erewrite bind_normal by reflexivity.
    pose proof (FetchFacts.handleFetchUsers_normal None listed
      (set_log (log s ++ map (fun name => Call (deletev1alpha1User name))
                           (userNamesToDelete s)) s)) as Hn.
    unfold completion in Hn. unfold exec.
    destruct (handleFetchUsers None listed _) as [c s2] eqn:E. simpl in Hn. subst c.
    erewrite bind_normal by exact E.
    destruct s2. reflexivity.
  - erewrite bind_throw by reflexivity. reflexivity.
Qed.

Lemma userNamesToDelete_In (s : State) (n : jsstring) :
  In n (userNamesToDelete s) <->
  In n (selectedUserNames s) /\ currentUserName s <> Some n.
Proof.
  unfold userNamesToDelete. rewrite filter_In, JSFacts.loose_neq_true.
  reflexivity.
Qed.

(** What a confirmed bulk delete leaves of the selection. *)
Lemma handleDeleteInBatch_onConfirm_selection (removed : jsstring -> Settled unit)
  (listed : Settled UserList) (s : State) :
  selectedUserNames (exec (handleDeleteInBatch_onConfirm removed listed) s) =
  if forallb fulfilled (map removed (userNamesToDelete s))
  then [] else selectedUserNames s.
Proof.
  unfold exec.
  pose proof (handleDeleteInBatch_onConfirm_run removed listed s) as Hrun.
  cbv zeta in Hrun. rewrite Hrun. clear Hrun.
  destruct (forallb fulfilled (map removed (userNamesToDelete s))) eqn:Hall.
  - destruct (Promise_all_fulfilled _ Hall) as [vs ->]. cbn [snd].
    destruct (exec (handleFetchUsers None listed) _). reflexivity.
  - destruct (Promise_all_rejected _ Hall) as [e [-> Hin]].
    destruct s. reflexivity.
Qed.

(** C5.  The names a confirmed bulk delete dispatches are the selected
    names other than the signed-in user's own (for the user admin and the
    selection admin, bob: bob alone).  One remove call per name is issued
    before any outcome is looked at.  When every call is fulfilled, the
    list is fetched again after them, the selection is emptied and the
    success toast is shown, in this order; when one is rejected, the
    handler stops there: no re-fetch, the selection as it was, no toast. *)
Theorem handleDeleteInBatch_dispatch (removed : jsstring -> Settled unit)
  (listed : Settled UserList) (s : State) :
  let names := userNamesToDelete s in
  let dispatched := map (fun name => Call (deletev1alpha1User name)) names in
  let s' := exec (handleDeleteInBatch_onConfirm removed listed) s in
  (forall n, In n names <->
             In n (selectedUserNames s) /\ currentUserName s <> Some n)
  /\ userNamesToDelete
       (set_selectedUserNames [js "admin"; js "bob"]
          (initial (Some Sample.admin) None)) = [js "bob"]
  /\ if forallb fulfilled (map removed names) then
       completion (handleDeleteInBatch_onConfirm removed listed) s = Normal tt
       /\ log s' = log s ++ dispatched
                   ++ fetch_effects (users s) (refreshInterval s) (nextHandle s) listed
                   ++ [ToastSuccess msg_deleted]
       /\ selectedUserNames s' = []
     else
       (exists e, completion (handleDeleteInBatch_onConfirm removed listed) s = Throw e
                  /\ In (Rejected e) (map removed names))
       /\ log s' = log s ++ dispatched
       /\ selectedUserNames s' = selectedUserNames s.
Proof.
  cbv zeta. split; [apply userNamesToDelete_In|]. split; [reflexivity|].
  unfold completion, exec.
  pose proof (handleDeleteInBatch_onConfirm_run removed listed s) as Hrun.
  cbv zeta in Hrun. rewrite Hrun. clear Hrun.
  destruct (forallb fulfilled (map removed (userNamesToDelete s))) eqn:Hall.
  - destruct (Promise_all_fulfilled _ Hall) as [vs ->].
    split; [reflexivity|]. split.
    + cbn [snd]. rewrite log_set_log, FetchFacts.handleFetchUsers_log.
      destruct s. cbn -[fetch_effects userNamesToDelete].
      rewrite <- !app_assoc. reflexivity.
    + cbn [snd].
      destruct (exec (handleFetchUsers None listed) _). reflexivity.
  - destruct (Promise_all_rejected _ Hall) as [e [-> Hin]].
    split; [exists e; split; [reflexivity | exact Hin]|].
    destruct s. split; reflexivity.
Qed.

(** C6 at a bulk delete whose remove call is rejected: with bob selected
    and the call for bob rejected, the [onConfirm] callback completes by
    throwing that error; the one effect is the remove call, so nothing is
    logged, and neither the re-fetch nor the reset of the selection is
    reached. *)
Theorem handleDeleteInBatch_rethrows :
  let page := Sample.pageOf 1 20 2 [Sample.admin; Sample.bob] in
  let s := exec (row_change (js "bob") true)
             (exec (onMounted (Fulfilled page)) (initial (Some Sample.admin) None)) in
  let onConfirm :=
    handleDeleteInBatch_onConfirm (fun _ => Rejected Sample.boom) (Fulfilled page) in
  selectedUserNames s = [js "bob"]
  /\ completion onConfirm s = Throw Sample.boom
  /\ log (exec onConfirm s) = log s ++ [Call (deletev1alpha1User (js "bob"))]
  /\ selectedUserNames (exec onConfirm s) = [js "bob"].
Proof. repeat split. Qed.

Lemma handleDelete_onConfirm_run (user : User) (removed : Settled unit)
  (listed : Settled UserList) (s : State) :
  handleDelete_onConfirm user removed listed s =
  handleFetchUsers None listed
    (set_log
       (log s ++ [Call (deletev1alpha1User (name (metadata user)));
                  match removed with
                  | Fulfilled _ => ToastSuccess msg_deleted
                  | Rejected e => ConsoleError (js "Failed to delete user") e
                  end]) s).
Proof.
  unfold handleDelete_onConfirm, try_catch_finally.
  erewrite bind_normal by apply emit_run.
  pose proof (FetchFacts.handleFetchUsers_normal None listed) as Hn.
  unfold completion in Hn.
  destruct removed as [[] | e]; cbn [await].
  - erewrite bind_normal by reflexivity.
    unfold Toast_success. rewrite emit_run.
    match goal with |- context [handleFetchUsers None listed ?x] =>
      specialize (Hn x); destruct (handleFetchUsers None listed x) as [c s2] eqn:E
    end.
    simpl in Hn. subst c.
    match goal with |- _ = handleFetchUsers None listed ?y =>
      replace (handleFetchUsers None listed y) with (@Normal unit tt, s2); [reflexivity|]
    end.
    rewrite <- E. f_equal. destruct s. cbn. rewrite <- app_assoc. reflexivity.
  - erewrite bind_throw by reflexivity.
    unfold console_error. rewrite emit_run.
    match goal with |- context [handleFetchUsers None listed ?x] =>
      specialize (Hn x); destruct (handleFetchUsers None listed x) as [c s2] eqn:E
    end.
    simpl in Hn. subst c.
    match goal with |- _ = handleFetchUsers None listed ?y =>
      replace (handleFetchUsers None listed y) with (@Normal unit tt, s2); [reflexivity|]
    end.
    rewrite <- E. f_equal. destruct s. cbn. rewrite <- app_assoc. reflexivity.
Qed.

(** C7, as the code has it.  A confirmed delete of one user issues the
    remove call; when it is fulfilled the success toast is shown, when it is
    rejected the error is written to the console and no toast is shown; on
    both paths the list is then fetched again, and nothing is thrown. *)
Theorem handleDelete_onConfirm_refetches (user : User) (removed : Settled unit)
  (listed : Settled UserList) (s : State) :
  let s' := exec (handleDelete_onConfirm user removed listed) s in
  completion (handleDelete_onConfirm user removed listed) s = Normal tt
  /\ log s' =
     log s
     ++ [Call (deletev1alpha1User (name (metadata user)))]
     ++ [match removed with
         | Fulfilled _ => ToastSuccess msg_deleted
         | Rejected e => ConsoleError (js "Failed to delete user") e
         end]
     ++ fetch_effects (users s) (refreshInterval s) (nextHandle s) listed.
Proof.
  cbv zeta. unfold completion, exec. rewrite handleDelete_onConfirm_run.
  split.
  - apply FetchFacts.handleFetchUsers_normal.
  - pose proof (FetchFacts.handleFetchUsers_log None listed) as Hlog.
    unfold exec in Hlog. rewrite Hlog. destruct s. cbn -[fetch_effects].
    rewrite <- !app_assoc. reflexivity.
Qed.

(** C7 as stated fails on the failure path: when the remove call for bob is
    rejected, the effects of the handler are the call, the console entry and
    the re-fetch; no toast is among them, so the user is shown nothing. *)
Lemma handleDelete_failure_shows_nothing :
  let page := Sample.pageOf 1 20 2 [Sample.admin; Sample.bob] in
  let s := exec (onMounted (Fulfilled page)) (initial (Some Sample.admin) None) in
  let s' := exec (handleDelete_onConfirm Sample.bob (Rejected Sample.boom)
                    (Fulfilled page)) s in
  log s' = log s ++ [Call (deletev1alpha1User (js "bob"));
                     ConsoleError (js "Failed to delete user") Sample.boom;
                     ClearInterval None;
                     Call (listv1alpha1User 1 20)]
  /\ (forall message, ~ In (ToastSuccess message) (log s')).
Proof.
  split; [reflexivity|].
  intros message H. cbn in H.
  repeat (destruct H as [H | H]; [discriminate H|]). exact H.
Qed.

End DeleteFacts.

(* ================================================================== *)
(** ** The selection *)
(* ================================================================== *)

Module SelectionFacts.
Import Api View ViewFacts.

Lemma handlePaginationChange_run (p sz : Z) (response : Settled UserList) (s : State) :
  handlePaginationChange p sz response s =
  handleFetchUsers None response (set_users (with_page_size p sz (users s)) s).
Proof. reflexivity. Qed.

Lemma assign_selectedUserNames_run (v : list jsstring) (s : State) :
  assign_selectedUserNames v s =
  (Normal tt,
   set_checkedAll (List.length v =? List.length (items (users s)))
     (set_selectedUserNames v s)).
Proof. destruct s. reflexivity. Qed.

Lemma assign_selectedUserNames_agrees (v : list jsstring) (s : State) :
  checkedAll_agrees (exec (assign_selectedUserNames v) s).
Proof.
  unfold exec. rewrite assign_selectedUserNames_run. destruct s. reflexivity.
Qed.

Lemma checkAll_change_checked (s : State) :
  exec (checkAll_change true) s =
  set_checkedAll true (set_selectedUserNames (pageNames s) s).
Proof.
  destruct s. unfold exec, checkAll_change, handleCheckAllChange, pageNames.
  cbn. rewrite length_map, Nat.eqb_refl. reflexivity.
Qed.

Lemma checkAll_change_unchecked (s : State) :
  exec (checkAll_change false) s =
  set_selectedUserNames [] (set_checkedAll false s).
Proof. destruct s. reflexivity. Qed.

Lemma row_change_run (n : jsstring) (checked : bool) (s : State) :
  row_change n checked s =
  if checked && negb (includes (selectedUserNames s) n)
  then assign_selectedUserNames (selectedUserNames s ++ [n]) s
  else if negb checked && includes (selectedUserNames s) n
  then assign_selectedUserNames (remove_first n (selectedUserNames s)) s
  else (Normal tt, s).
Proof.
  unfold row_change. erewrite bind_normal by reflexivity.
  destruct (checked && negb (includes (selectedUserNames s) n)); [reflexivity|].
  destruct (negb checked && includes (selectedUserNames s) n); reflexivity.
Qed.

(** C2, as the code has it.  A fetch and a pagination change leave the
    selected names exactly as they were: nothing intersects them with the
    new page or clears them.  The selected names are the names of the
    current page right after the check-all box is ticked; they are emptied
    when it is unticked, and at the end of a confirmed bulk delete whose
    remove calls were all fulfilled. *)
Theorem selection_left_by_fetch (options : option Options) (p sz : Z)
  (response : Settled UserList) (removed : jsstring -> Settled unit) (s : State) :
  selectedUserNames (exec (handleFetchUsers options response) s) = selectedUserNames s
  /\ selectedUserNames (exec (handlePaginationChange p sz response) s)
     = selectedUserNames s
  /\ selectedUserNames (exec (checkAll_change true) s) = pageNames s
  /\ selectedUserNames (exec (checkAll_change false) s) = []
  /\ selectedUserNames (exec (handleDeleteInBatch_onConfirm removed response) s)
     = if forallb fulfilled (map removed (userNamesToDelete s))
       then [] else selectedUserNames s.
Proof.
  split; [apply FetchFacts.handleFetchUsers_selection|].
  split.
  { unfold exec. rewrite handlePaginationChange_run.
    pose proof (FetchFacts.handleFetchUsers_selection None response
                  (set_users (with_page_size p sz (users s)) s)) as [H _].
    unfold exec in H. rewrite H. destruct s. reflexivity. }
  split; [rewrite checkAll_change_checked; destruct s; reflexivity|].
  split; [rewrite checkAll_change_unchecked; destruct s; reflexivity|].
  apply DeleteFacts.handleDeleteInBatch_onConfirm_selection.
Qed.

(** C2 as stated fails: alice is selected on a page that holds alice and
    bob; a pagination change then fetches a page that holds bob alone (alice
    is gone in between); alice is still selected, though no user of the new
    page bears the name. *)
Lemma selection_survives_refetch :
  let s1 := exec (onMounted (Fulfilled (Sample.pageOf 1 20 2 [Sample.alice; Sample.bob])))
              (initial (Some Sample.admin) None) in
  let s2 := exec (row_change (js "alice") true) s1 in
  let s3 := exec (handlePaginationChange 1 30
                    (Fulfilled (Sample.pageOf 1 30 1 [Sample.bob]))) s2 in
  selectedUserNames s3 = [js "alice"]
  /\ pageNames s3 = [js "bob"]
  /\ ~ incl (selectedUserNames s3) (pageNames s3).
Proof.
  split; [reflexivity|]. split; [reflexivity|].
  intros H. specialize (H (js "alice") (or_introl eq_refl)).
  cbn in H. destruct H as [H | []]. discriminate H.
Qed.

(** C3, as the code has it.  Each assignment of [selectedUserNames] runs
    the watcher, after which [checkedAll] tells whether as many names are
    selected as the page has items: so after ticking the check-all box, and
    after a change of a row's box that changes the selection (a change that
    does not, leaves the state alone). *)
Theorem checkedAll_recomputed_on_assignment (s : State) (v : list jsstring)
  (n : jsstring) (checked : bool) :
  checkedAll_agrees (exec (assign_selectedUserNames v) s)
  /\ checkedAll_agrees (exec (checkAll_change true) s)
  /\ (exec (row_change n checked) s = s
      \/ checkedAll_agrees (exec (row_change n checked) s)).
Proof.
  split; [apply assign_selectedUserNames_agrees|]. split.
  - rewrite checkAll_change_checked. destruct s. unfold checkedAll_agrees, pageNames.
    cbn. rewrite length_map, Nat.eqb_refl. reflexivity.
  - pose proof (row_change_run n checked s) as R.
    destruct (checked && negb (includes (selectedUserNames s) n)).
    { right. unfold exec. rewrite R.
      exact (assign_selectedUserNames_agrees _ s). }
    destruct (negb checked && includes (selectedUserNames s) n).
    { right. unfold exec. rewrite R.
      exact (assign_selectedUserNames_agrees _ s). }
    left. unfold exec. rewrite R. reflexivity.
Qed.

(** C3 as stated fails.  In the initial state nothing is selected and the
    page is empty, 0 = 0, yet [checkedAll] is false.  And after ticking
    check-all on a page of two users, a fetch that brings a page of three
    leaves [checkedAll] true with two names selected. *)
Lemma checkedAll_stale :
  let s0 := initial (Some Sample.admin) None in
  let s1 := exec (onMounted (Fulfilled (Sample.pageOf 1 20 2 [Sample.alice; Sample.bob]))) s0 in
  let s2 := exec (checkAll_change true) s1 in
  let s3 := exec (onEditingModalClose
                    (Fulfilled (Sample.pageOf 1 20 3 [Sample.alice; Sample.bob; Sample.carol]))) s2 in
  (checkedAll s0 = false
   /\ List.length (selectedUserNames s0) = List.length (items (users s0)))
  /\ (checkedAll s3 = true
      /\ List.length (selectedUserNames s3) = 2
      /\ List.length (items (users s3)) = 3)
  /\ ~ checkedAll_agrees s0
  /\ ~ checkedAll_agrees s3.
Proof.
  repeat split; try discriminate.
Qed.

(** A pagination change stores the new page number and size and issues one
    list call, with them. *)
Theorem handlePaginationChange_one_fetch (p sz : Z) (response : Settled UserList)
  (s : State) :
  log (exec (handlePaginationChange p sz response) s) =
  log s
  ++ [ClearInterval (refreshInterval s); Call (listv1alpha1User p sz)]
  ++ match response with
     | Fulfilled data =>
         match deletedUsers data with
         | [] => []
         | _ :: _ => [SetInterval (nextHandle s)]
         end
     | Rejected e => [ConsoleError (js "Failed to fetch users") e]
     end.
Proof.
  unfold exec. rewrite handlePaginationChange_run.
  pose proof (FetchFacts.handleFetchUsers_log None response
                (set_users (with_page_size p sz (users s)) s)) as H.
  unfold exec in H. rewrite H. destruct s. reflexivity.
Qed.

(** A row is shown as selected when its user's name is the name of the
    active user or is among the selected names. *)
Theorem checkSelection_spec (s : State) (user : User) :
  checkSelection s user = true <->
  (exists active, selectedUser s = Some active
                  /\ name (metadata active) = name (metadata user))
  \/ In (name (metadata user)) (selectedUserNames s).
Proof.
  unfold checkSelection. rewrite orb_true_iff, JSFacts.includes_In.
  apply or_iff_compat_r. destruct (selectedUser s) as [a|]; simpl.
  - rewrite JSFacts.jsstring_eqb_eq. split.
    + intros H. exists a. split; congruence.
    + intros [a' [Ha Hn]]. inversion Ha; subst. congruence.
  - split; [discriminate|]. intros [a' [Ha _]]. discriminate.
Qed.

End SelectionFacts.

(* ================================================================== *)
(** ** The polling timer *)
(* ================================================================== *)

Module PollerFacts.
Import Api View ViewFacts Loop.








(** C4 at two fetches that overlap.  The view is mounted and starts a
    fetch; before its list call settles a second fetch starts (the editing
    modal is closed, say); both calls are then fulfilled with a page on
    which bob is being deleted.  Each fetch cancelled the timer of
    [refreshInterval] before its [await], when there was none, and each
    arms one after it: timers 1 and 2 are both active.  [refreshInterval]
    holds 2 only, so timer 1 is beyond reach: when it fires, the fetch it
    starts cancels timer 2, and though that fetch returns a page with no
    user being deleted, timer 1 stays active; so it does after the view is
    unmounted.  Last, a single fetch that is still waiting when the view is
    unmounted arms a timer after the teardown. *)
Theorem overlapping_fetches_arm_two_timers :
  let page := Sample.pageOf 1 20 2 [Sample.alice; Sample.bob_deleting] in
  let clean := Sample.pageOf 1 20 1 [Sample.alice] in
  let overlap := [Invoke None; Invoke None;
                  Settle (Fulfilled page); Settle (Fulfilled page)] in
  let active events :=
    option_map (fun w => timers (view w))
      (run events (start (Some Sample.admin) None)) in
  active overlap = Some [1; 2]
  /\ active (overlap ++ [Tick 1; Settle (Fulfilled clean)]) = Some [1]
  /\ active (overlap ++ [Tick 1; Settle (Fulfilled clean); Unmount]) = Some [1]
  /\ active [Invoke None; Unmount; Settle (Fulfilled page)] = Some [1].
Proof. repeat split. Qed.





End PollerFacts.

(* ================================================================== *)
(** ** Sessions: what holds whatever the user does *)
(* ================================================================== *)

Module SessionFacts.
Import Api View ViewFacts Session.

Lemma step_summary_refl (s s' : State) :
  currentUser s' = currentUser s -> fuse s' = fuse s -> users s' = users s ->
  log s' = log s -> step_summary s s' [].
Proof.
  intros Hc Hf Hu Hl. unfold step_summary, fuse_synced.
  rewrite Hc, Hf, Hu, Hl, app_nil_r. auto.
Qed.

Lemma step_summary_trans (s1 s2 s3 : State) (a b : list Effect) :
  step_summary s1 s2 a -> step_summary s2 s3 b -> step_summary s1 s3 (a ++ b).
Proof.
  intros (Hc1 & Hf1 & Hl1) (Hc2 & Hf2 & Hl2). unfold step_summary.
  rewrite Hc2, Hc1, Hl2, Hl1, app_assoc. auto.
Qed.

Lemma request_summary (options : option Options) (s : State) :
  step_summary s (exec (handleFetchUsers_request options) s)
    [ClearInterval (refreshInterval s);
     Call (listv1alpha1User (page (users s)) (size (users s)))].
Proof.
  unfold exec. rewrite FetchFacts.handleFetchUsers_request_run.
  destruct s. repeat split. exact (fun H => H).
Qed.

Lemma response_summary (listed : Settled UserList) (s : State) :
  step_summary s (exec (handleFetchUsers_response listed) s)
    (response_effects (nextHandle s) listed).
Proof.
  unfold exec, response_effects. destruct listed as [data | e].
  - rewrite FetchFacts.handleFetchUsers_response_fulfilled.
    destruct s. cbn -[deletedUsers].
    destruct (deletedUsers data); repeat split; cbn; rewrite ?app_nil_r; reflexivity.
  - rewrite FetchFacts.handleFetchUsers_response_rejected.
    destruct s. repeat split. exact (fun H => H).
Qed.

Lemma fetch_summary (options : option Options) (listed : Settled UserList)
  (s : State) :
  step_summary s (exec (handleFetchUsers options listed) s)
    (fetch_effects (users s) (refreshInterval s) (nextHandle s) listed).
Proof.
  unfold exec. rewrite FetchFacts.handleFetchUsers_run.
  pose proof (request_summary options s) as H1.
  pose proof (response_summary listed (exec (handleFetchUsers_request options) s)) as H2.
  pose proof (step_summary_trans _ _ _ _ _ H1 H2) as H.
  replace (nextHandle (exec (handleFetchUsers_request options) s))
    with (nextHandle s) in H.
  - exact H.
  - unfold exec. rewrite FetchFacts.handleFetchUsers_request_run.
    destruct s. reflexivity.
Qed.

Lemma step_summary_frame (s s1 s2 : State) (added : list Effect) :
  step_summary s s1 added ->
  currentUser s2 = currentUser s1 -> fuse s2 = fuse s1 -> users s2 = users s1 ->
  log s2 = log s1 -> step_summary s s2 added.
Proof.
  intros H Hc Hf Hu Hl.
  pose proof (step_summary_trans _ _ _ _ _ H (step_summary_refl s1 s2 Hc Hf Hu Hl)) as H'.
  rewrite app_nil_r in H'. exact H'.
Qed.

(** The second mount hook only opens the editing modal, and only for the
    action "create"; the first is a fetch. *)
Lemma onMounted_run (listed : Settled UserList) (s : State) :
  exec (onMounted listed) s =
  set_editingModal
    (editingModal s || strict_eq (js "create") (routeQueryAction s))
    (exec (handleFetchUsers None listed) s).
Proof.
  unfold exec at 2. rewrite FetchFacts.handleFetchUsers_run.
  unfold onMounted, exec.
  erewrite bind_normal by apply FetchFacts.handleFetchUsers_request_run.
  erewrite bind_normal by reflexivity.
  rewrite FetchFacts.handleFetchUsers_request_run. cbn [snd].
  assert (Hc : forall a : option jsstring,
             truthy a && strict_eq (js "create") a = strict_eq (js "create") a).
  { intros [v|]; [|reflexivity]. cbn [strict_eq truthy].
    destruct (jsstring_eqb (js "create") v) eqn:E; [|apply andb_false_r].
    apply JSFacts.jsstring_eqb_eq in E. subst v. reflexivity. }
  destruct s. cbn [routeQueryAction set_log set_loading set_timers editingModal].
  rewrite Hc.
  destruct (strict_eq (js "create") routeQueryAction0); cbn [when].
  - erewrite bind_normal by reflexivity. rewrite orb_true_r.
    destruct listed as [data | e].
    + rewrite !FetchFacts.handleFetchUsers_response_fulfilled.
      cbn -[deletedUsers cancel]. destruct (deletedUsers data); reflexivity.
    + rewrite !FetchFacts.handleFetchUsers_response_rejected. reflexivity.
  - erewrite bind_normal by reflexivity. rewrite orb_false_r.
    destruct listed as [data | e].
    + rewrite !FetchFacts.handleFetchUsers_response_fulfilled.
      cbn -[deletedUsers cancel]. destruct (deletedUsers data); reflexivity.
    + rewrite !FetchFacts.handleFetchUsers_response_rejected. reflexivity.
Qed.

Lemma delete_in_batch_summary (removed : jsstring -> Settled unit)
  (listed : Settled UserList) (s : State) :
  step_summary s (exec (handleDeleteInBatch_onConfirm removed listed) s)
    (effects_of (ConfirmDeleteInBatch removed listed) s).
Proof.
  unfold exec, effects_of.
  pose proof (DeleteFacts.handleDeleteInBatch_onConfirm_run removed listed s) as R.
  cbv zeta in R. rewrite R. clear R.
  set (names := userNamesToDelete s).
  set (s1 := set_log (log s ++ map (fun n => Call (deletev1alpha1User n)) names) s).
  assert (H1 : step_summary s s1 (map (fun n => Call (deletev1alpha1User n)) names)).
  { subst s1. destruct s. repeat split. exact (fun H => H). }
  destruct (forallb fulfilled (map removed names)) eqn:Hall.
  - destruct (DeleteFacts.Promise_all_fulfilled _ Hall) as [vs ->]. cbn [snd].
    pose proof (fetch_summary None listed s1) as H2.
    replace (users s1) with (users s) in H2 by (subst s1; destruct s; reflexivity).
    replace (refreshInterval s1) with (refreshInterval s) in H2
      by (subst s1; destruct s; reflexivity).
    replace (nextHandle s1) with (nextHandle s) in H2
      by (subst s1; destruct s; reflexivity).
    eapply step_summary_trans; [exact H1|].
    eapply step_summary_trans; [exact H2|].
    destruct (exec (handleFetchUsers None listed) s1). repeat split.
    exact (fun H => H).
  - destruct (DeleteFacts.Promise_all_rejected _ Hall) as [e [-> _]]. cbn [snd].
    rewrite app_nil_r. exact H1.
Qed.

Lemma delete_summary (user : User) (removed : Settled unit)
  (listed : Settled UserList) (s : State) :
  step_summary s (exec (handleDelete_onConfirm user removed listed) s)
    (effects_of (ConfirmDelete user removed listed) s).
Proof.
  unfold exec, effects_of. rewrite DeleteFacts.handleDelete_onConfirm_run.
  match goal with |- context [handleFetchUsers None listed ?x] => set (s1 := x) end.
  pose proof (fetch_summary None listed s1) as H2.
  replace (users s1) with (users s) in H2 by (subst s1; destruct s; reflexivity).
  replace (refreshInterval s1) with (refreshInterval s) in H2
    by (subst s1; destruct s; reflexivity).
  replace (nextHandle s1) with (nextHandle s) in H2
    by (subst s1; destruct s; reflexivity).
  eapply step_summary_trans; [|exact H2].
  subst s1. destruct s. repeat split. exact (fun H => H).
Qed.

(** Every action keeps the signed-in user and the agreement of the index
    with the page, and has the effects [effects_of] lists. *)
Lemma perform_summary (a : Action) (s : State) :
  step_summary s (exec (perform a) s) (effects_of a s).
Proof.
  destruct a as [listed | | options listed | options | listed | p sz listed
                | text | checked | n checked | | user | user | user | listed
                | user removed listed | removed listed]; cbn [perform].
  - rewrite onMounted_run.
    eapply step_summary_frame; [apply (fetch_summary None listed s) | | | | ];
      destruct (exec (handleFetchUsers None listed) s); reflexivity.
  - destruct s. repeat split. exact (fun H => H).
  - apply fetch_summary.
  - apply request_summary.
  - apply response_summary.
  - unfold exec. rewrite SelectionFacts.handlePaginationChange_run.
    pose proof (fetch_summary None listed
                  (set_users (with_page_size p sz (users s)) s)) as H.
    destruct s. cbn [effects_of]. destruct H as (Hc & Hf & Hl).
    repeat split; [exact Hc | exact Hf | exact Hl].
  - destruct s. repeat split; [exact (fun H => H) | cbn; now rewrite app_nil_r].
  - destruct checked.
    + rewrite SelectionFacts.checkAll_change_checked.
      destruct s. repeat split; [exact (fun H => H) | cbn; now rewrite app_nil_r].
    + rewrite SelectionFacts.checkAll_change_unchecked.
      destruct s. repeat split; [exact (fun H => H) | cbn; now rewrite app_nil_r].
  - unfold exec. rewrite SelectionFacts.row_change_run.
    repeat match goal with |- context [if ?b then _ else _] => destruct b end;
      try rewrite SelectionFacts.assign_selectedUserNames_run;
      destruct s; (repeat split; [exact (fun H => H) | cbn; now rewrite app_nil_r]).
  - destruct s. repeat split; [exact (fun H => H) | cbn; now rewrite app_nil_r].
  - destruct s. repeat split; [exact (fun H => H) | cbn; now rewrite app_nil_r].
  - destruct s. repeat split; [exact (fun H => H) | cbn; now rewrite app_nil_r].
  - destruct s. repeat split; [exact (fun H => H) | cbn; now rewrite app_nil_r].
  - unfold onEditingModalClose, exec. erewrite bind_normal by reflexivity.
    pose proof (fetch_summary None listed (set_routeQueryAction None s)) as H.
    destruct s. exact H.
  - apply delete_summary.
  - apply delete_in_batch_summary.
Qed.




Lemma fetch_effects_calls (us : UserList) (handle : option nat) (next : nat)
  (listed : Settled UserList) (q : Request) :
  In (Call q) (fetch_effects us handle next listed) ->
  q = listv1alpha1User (page us) (size us).
Proof.
  unfold fetch_effects. cbn [app In].
  intros [H | [H | H]]; [discriminate | congruence |].
  destruct listed as [data | e]; [destruct (deletedUsers data)|]; cbn in H;
    intuition discriminate.
Qed.

Lemma effects_of_no_self (a : Action) (s : State) (me : jsstring) :
  currentUserName s = Some me -> offered a s = true ->
  ~ In (Call (deletev1alpha1User me)) (effects_of a s).
Proof.
  intros Hme Hoff Hin.
  destruct a as [listed | | options listed | options | listed | p sz listed
                | text | checked | n checked | | user | user | user | listed
                | user removed listed | removed listed];
    cbn [effects_of] in Hin;
    try (apply fetch_effects_calls in Hin; discriminate);
    try contradiction.
  - cbn in Hin. destruct Hin as [H | []]. discriminate.
  - cbn in Hin. destruct Hin as [H | [H | []]]; discriminate.
  - unfold response_effects in Hin.
    destruct listed as [data | e]; [destruct (deletedUsers data)|]; cbn in Hin;
      intuition discriminate.
  - cbn [app In] in Hin. destruct Hin as [H | [H | H]].
    + inversion H as [Hn]. cbn [offered] in Hoff. unfold showsRowActions in Hoff.
      rewrite Hme, Hn in Hoff. cbn in Hoff.
      rewrite JSFacts.jsstring_eqb_refl in Hoff. discriminate.
    + destruct removed; discriminate.
    + apply fetch_effects_calls in H. discriminate.
  - apply in_app_or in Hin. destruct Hin as [H | H].
    + apply in_map_iff in H. destruct H as [n [Hn Hin]]. inversion Hn; subst n.
      apply DeleteFacts.userNamesToDelete_In in Hin. destruct Hin as [_ Hne].
      congruence.
    + destruct (forallb fulfilled _); [|contradiction].
      apply in_app_or in H. destruct H as [H | [H | []]]; [|discriminate].
      apply fetch_effects_calls in H. discriminate.
Qed.

Lemma run_never_removes_self (actions : list Action) (me : jsstring) :
  forall s s',
    currentUserName s = Some me -> run actions s = Some s' ->
    ~ In (Call (deletev1alpha1User me)) (log s) ->
    ~ In (Call (deletev1alpha1User me)) (log s').
Proof.
  induction actions as [|a rest IH]; intros s s' Hme Hrun Hlog; cbn [run] in Hrun.
  - inversion Hrun; subst; exact Hlog.
  - destruct (offered a s) eqn:Hoff; [|discriminate].
    destruct (perform_summary a s) as (Hc & _ & Hl).
    apply (IH (exec (perform a) s) s'); [| exact Hrun |].
    + unfold currentUserName in *. rewrite Hc. exact Hme.
    + rewrite Hl. intros H. apply in_app_or in H. destruct H as [H | H].
      * exact (Hlog H).
      * exact (effects_of_no_self a s me Hme Hoff H).
Qed.

(** Through this view a signed-in user never asks for their own removal:
    whatever is selected, confirmed, fetched or paged, no remove call for
    the signed-in user's name is issued.  The bulk delete filters the name
    out, and the row of the signed-in user does not offer the delete. *)
Theorem session_never_removes_self (user : User) (action : option jsstring)
  (actions : list Action) (s' : State) :
  run actions (initial (Some user) action) = Some s' ->
  ~ In (Call (deletev1alpha1User (name (metadata user)))) (log s').
Proof.
  intros Hrun.
  apply (run_never_removes_self actions (name (metadata user))
           (initial (Some user) action) s' eq_refl Hrun).
  intros [].
Qed.

Lemma session_never_removes_self_witness :
  let page := Sample.pageOf 1 20 2 [Sample.admin; Sample.bob] in
  let actions := [Mount (Fulfilled page); CheckAll true;
                  ConfirmDeleteInBatch (fun _ => Fulfilled tt) (Fulfilled page)] in
  exists s', run actions (initial (Some Sample.admin) None) = Some s'
             /\ In (Call (deletev1alpha1User (js "bob"))) (log s')
             /\ ~ In (Call (deletev1alpha1User (js "admin"))) (log s').
Proof.
  eexists. split; [reflexivity|]. split.
  - cbn. right. right. left. reflexivity.
  - apply (session_never_removes_self Sample.admin None
             [Mount (Fulfilled (Sample.pageOf 1 20 2 [Sample.admin; Sample.bob]));
              CheckAll true;
              ConfirmDeleteInBatch (fun _ => Fulfilled tt)
                (Fulfilled (Sample.pageOf 1 20 2 [Sample.admin; Sample.bob]))]).
    reflexivity.
Defined.
End SessionFacts.

(* ================================================================== *)
(** ** Deleting: edge cases *)
(* ================================================================== *)

Module DeleteEdgeFacts.
Import Api View ViewFacts Session.

Lemma userNamesToDelete_nil (s : State) :
  userNamesToDelete s = [] <->
  (forall n, In n (selectedUserNames s) -> currentUserName s = Some n).
Proof.
  split.
  - intros H n Hn.
    destruct (list_eq_dec N.eq_dec n n) as [_|]; [|contradiction].
    destruct (currentUserName s) as [m|] eqn:E.
    + destruct (list_eq_dec N.eq_dec m n) as [-> | Hne]; [reflexivity|].
      exfalso. assert (Hin : In n (userNamesToDelete s)).
      { apply DeleteFacts.userNamesToDelete_In. split; [exact Hn|].
        rewrite E. congruence. }
      rewrite H in Hin. exact Hin.
    + exfalso. assert (Hin : In n (userNamesToDelete s)).
      { apply DeleteFacts.userNamesToDelete_In. split; [exact Hn|].
        rewrite E. discriminate. }
      rewrite H in Hin. exact Hin.
  - intros H. destruct (userNamesToDelete s) as [|n l] eqn:E; [reflexivity|].
    exfalso. assert (Hin : In n (userNamesToDelete s)) by (rewrite E; left; reflexivity).
    apply DeleteFacts.userNamesToDelete_In in Hin. destruct Hin as [Hn Hne].
    exact (Hne (H n Hn)).
Qed.

(** A bulk delete confirmed when nothing but the signed-in user's own name
    is selected issues no remove call at all, and yet fetches the list
    again, empties the selection and shows the success toast. *)
Theorem handleDeleteInBatch_nothing_to_remove
  (removed : jsstring -> Settled unit) (listed : Settled UserList) (s : State) :
  (forall n, In n (selectedUserNames s) -> currentUserName s = Some n) ->
  let s' := exec (handleDeleteInBatch_onConfirm removed listed) s in
  completion (handleDeleteInBatch_onConfirm removed listed) s = Normal tt
  /\ log s' = log s
              ++ fetch_effects (users s) (refreshInterval s) (nextHandle s) listed
              ++ [ToastSuccess msg_deleted]
  /\ (forall n, ~ In (Call (deletev1alpha1User n)) (log s) ->
                ~ In (Call (deletev1alpha1User n)) (log s'))
  /\ selectedUserNames s' = [].
Proof.
  intros H. apply userNamesToDelete_nil in H. cbv zeta.
  pose proof (SessionFacts.delete_in_batch_summary removed listed s) as (_ & _ & Hl).
  pose proof (DeleteFacts.handleDeleteInBatch_onConfirm_selection removed listed s) as Hs.
  pose proof (DeleteFacts.handleDeleteInBatch_onConfirm_run removed listed s) as R.
  cbv zeta in R. unfold effects_of in Hl. rewrite H in Hl, Hs, R.
  cbn [map Promise_all forallb app] in Hl, Hs, R.
  split; [unfold completion; rewrite R; reflexivity|].
  split; [exact Hl|]. split; [|exact Hs].
  intros n Hn Hin. rewrite Hl in Hin.
  apply in_app_or in Hin. destruct Hin as [Hin | Hin]; [exact (Hn Hin)|].
  apply in_app_or in Hin. destruct Hin as [Hin | [Hin | []]]; [|discriminate].
  apply SessionFacts.fetch_effects_calls in Hin. discriminate.
Qed.

Lemma handleDeleteInBatch_nothing_to_remove_witness :
  let page := Sample.pageOf 1 20 2 [Sample.admin; Sample.bob] in
  let s := exec (row_change (js "admin") true)
             (exec (onMounted (Fulfilled page)) (initial (Some Sample.admin) None)) in
  let s' := exec (handleDeleteInBatch_onConfirm (fun _ => Rejected Sample.boom)
                    (Fulfilled page)) s in
  selectedUserNames s = [js "admin"]
  /\ log s' = log s ++ [ClearInterval None; Call (listv1alpha1User 1 20);
                        ToastSuccess msg_deleted]
  /\ selectedUserNames s' = [].
Proof.
  split; [reflexivity|].
  pose proof (handleDeleteInBatch_nothing_to_remove (fun _ => Rejected Sample.boom)
    (Fulfilled (Sample.pageOf 1 20 2 [Sample.admin; Sample.bob]))
    (exec (row_change (js "admin") true)
       (exec (onMounted (Fulfilled (Sample.pageOf 1 20 2 [Sample.admin; Sample.bob])))
          (initial (Some Sample.admin) None)))) as H.
  cbv zeta in H. destruct H as (_ & Hl & _ & Hs).
  - intros n [<- | []]. reflexivity.
  - split; [exact Hl | exact Hs].
Defined.

(** Deleting one user does not touch the selection: the names selected, the
    check-all flag and so the names a later bulk delete would dispatch are
    what they were, the name of the user just deleted included. *)
Theorem handleDelete_keeps_selection (user : User) (removed : Settled unit)
  (listed : Settled UserList) (s : State) :
  let s' := exec (handleDelete_onConfirm user removed listed) s in
  selectedUserNames s' = selectedUserNames s
  /\ checkedAll s' = checkedAll s
  /\ userNamesToDelete s' = userNamesToDelete s.
Proof.
  cbv zeta. unfold exec. rewrite DeleteFacts.handleDelete_onConfirm_run.
  match goal with |- context [handleFetchUsers None listed ?x] => set (s1 := x) end.
  pose proof (FetchFacts.handleFetchUsers_selection None listed s1) as [Hn Hc].
  pose proof (SessionFacts.fetch_summary None listed s1) as (Hu & _ & _).
  unfold exec in *.
  assert (E1 : selectedUserNames s1 = selectedUserNames s) by (subst s1; destruct s; reflexivity).
  assert (E2 : checkedAll s1 = checkedAll s) by (subst s1; destruct s; reflexivity).
  assert (E3 : currentUser s1 = currentUser s) by (subst s1; destruct s; reflexivity).
  split; [congruence|]. split; [congruence|].
  unfold userNamesToDelete, currentUserName. rewrite Hn, Hu, E1, E3. reflexivity.
Qed.

End DeleteEdgeFacts.

(* ================================================================== *)
(** ** Rows, pages and modals *)
(* ================================================================== *)

Module RowFacts.
Import Api View ViewFacts Session.

(** After a pagination change the page stored is the response when the list
    call is fulfilled.  When it is rejected, the page stored keeps its items
    and totals but carries the page number and size asked for: the change is
    not rolled back. *)
Theorem handlePaginationChange_page (p sz : Z) (listed : Settled UserList)
  (s : State) :
  let s' := exec (handlePaginationChange p sz listed) s in
  match listed with
  | Fulfilled data => users s' = data
  | Rejected _ =>
      users s' = with_page_size p sz (users s)
      /\ items (users s') = items (users s)
      /\ page (users s') = p /\ size (users s') = sz
      /\ fuse s' = fuse s
  end.
Proof.
  cbv zeta. unfold exec. rewrite SelectionFacts.handlePaginationChange_run.
  rewrite FetchFacts.handleFetchUsers_run. unfold exec.
  rewrite FetchFacts.handleFetchUsers_request_run.
  destruct listed as [data | e].
  - rewrite FetchFacts.handleFetchUsers_response_fulfilled. destruct s.
    cbn -[deletedUsers cancel]. destruct (deletedUsers data); reflexivity.
  - rewrite FetchFacts.handleFetchUsers_response_rejected. destruct s.
    repeat split.
Qed.

(** Ticking the check-all box marks every row of the page, and shows the
    delete button in place of the keyword field unless the page is empty;
    unticking it leaves marked no row but that of the active user, and
    brings the keyword field back. *)
Theorem checkAll_marks_rows (s : State) :
  let on := exec (checkAll_change true) s in
  let off := exec (checkAll_change false) s in
  forallb (checkSelection on) (items (users on)) = true
  /\ checkedAll on = true
  /\ showsSearchBox on = (List.length (items (users s)) =? 0)
  /\ (forall user, checkSelection off user =
                   strict_eq (name (metadata user))
                     (option_map (fun u => name (metadata u)) (selectedUser s)))
  /\ checkedAll off = false
  /\ showsSearchBox off = true.
Proof.
  cbv zeta. rewrite SelectionFacts.checkAll_change_checked,
    SelectionFacts.checkAll_change_unchecked.
  destruct s. unfold showsSearchBox, checkSelection, pageNames. cbn.
  split.
  - apply forallb_forall. intros u Hu. apply orb_true_iff. right.
    apply JSFacts.includes_In. apply in_map_iff. exists u. auto.
  - split; [reflexivity|]. split; [now rewrite length_map|].
    split; [|split; reflexivity].
    intros user. rewrite orb_false_r. destruct selectedUser0; reflexivity.
Qed.

(** Ticking check-all and confirming the bulk delete dispatches the names of
    the page other than the signed-in user's, in the order of the page. *)
Theorem checkAll_then_delete_in_batch (s : State) :
  let on := exec (checkAll_change true) s in
  userNamesToDelete on
  = filter (fun n => loose_neq n (currentUserName s)) (pageNames s)
  /\ (forall n, In n (userNamesToDelete on) <->
                (exists user, In user (items (users s))
                              /\ name (metadata user) = n)
                /\ currentUserName s <> Some n).
Proof.
  cbv zeta. rewrite SelectionFacts.checkAll_change_checked.
  assert (E : userNamesToDelete
                (set_checkedAll true (set_selectedUserNames (pageNames s) s))
              = filter (fun n => loose_neq n (currentUserName s)) (pageNames s)).
  { destruct s. reflexivity. }
  split; [exact E|].
  intros n. rewrite E, filter_In, JSFacts.loose_neq_true.
  unfold pageNames. rewrite in_map_iff.
  split; intros [[u Hu] Hne]; (split; [exists u; tauto | exact Hne]).
Qed.


(** Mounting the view fetches the list once and, besides, opens the editing
    modal exactly when the [action] of the route is "create". *)
Theorem onMounted_opens_editor_for_create (listed : Settled UserList) (s : State) :
  let s' := exec (onMounted listed) s in
  (editingModal s' = true <->
   editingModal s = true \/ routeQueryAction s = Some (js "create"))
  /\ users s' = users (exec (handleFetchUsers None listed) s)
  /\ log s' = log s
              ++ fetch_effects (users s) (refreshInterval s) (nextHandle s) listed.
Proof.
  cbv zeta. rewrite SessionFacts.onMounted_run.
  pose proof (FetchFacts.handleFetchUsers_log None listed s) as Hl.
  destruct (exec (handleFetchUsers None listed) s) eqn:E. cbn in *.
  split; [|split; [reflexivity | exact Hl]].
  rewrite orb_true_iff. apply or_iff_compat_l.
  destruct (routeQueryAction s) as [v|]; cbn.
  - rewrite JSFacts.jsstring_eqb_eq. split; congruence.
  - split; discriminate.
Qed.

End RowFacts.

(* ================================================================== *)
(** ** Fetches that race *)
(* ================================================================== *)

Module RaceFacts.
Import Api View ViewFacts Loop.

Lemma run_app (a b : list Event) :
  forall w, run (a ++ b) w =
            match run a w with
            | Some w1 => run b w1
            | None => None
            end.
Proof.
  induction a as [|e a IH]; intros w; cbn [app run]; [reflexivity|].
  destruct (step e w); [apply IH | reflexivity].
Qed.

(** When fetches overlap, the list call that settles last decides: after any
    events, a list call that is fulfilled makes its response the page shown
    and the page indexed, whichever fetch issued it; and every settled call
    clears the loading indicator and the active user, though other calls
    may still be on their way. *)
Theorem last_response_wins (events : list Event) (response : Settled UserList)
  (w w' : World) :
  run (events ++ [Settle response]) w = Some w' ->
  loading (view w') = false
  /\ selectedUser (view w') = None
  /\ match response with
     | Fulfilled data =>
         users (view w') = data /\ fuse (view w') = Some (new_Fuse (items data))
     | Rejected _ => True
     end.
Proof.
  rewrite run_app. destruct (run events w) as [w1|]; [|discriminate].
  cbn [run step]. destruct (inflight w1); [discriminate|].
  intros H. inversion H; subst w'. cbn [view]. unfold exec.
  destruct response as [data | e].
  - rewrite FetchFacts.handleFetchUsers_response_fulfilled.
    destruct (view w1). cbn -[deletedUsers].
    destruct (deletedUsers data); repeat split.
  - rewrite FetchFacts.handleFetchUsers_response_rejected.
    destruct (view w1). repeat split.
Qed.

Lemma last_response_wins_witness :
  let first := Sample.pageOf 1 20 2 [Sample.alice; Sample.bob] in
  let second := Sample.pageOf 1 20 1 [Sample.alice] in
  let events := [Invoke None; Invoke None; Invoke None; Settle (Fulfilled second)] in
  exists w', run (events ++ [Settle (Fulfilled first)])
               (start (Some Sample.admin) None) = Some w'
             /\ inflight w' = 1
             /\ loading (view w') = false
             /\ users (view w') = first.
Proof.
  eexists. split; [reflexivity|]. split; [reflexivity|].
  pose proof (last_response_wins
    [Invoke None; Invoke None; Invoke None;
     Settle (Fulfilled (Sample.pageOf 1 20 1 [Sample.alice]))]
    (Fulfilled (Sample.pageOf 1 20 2 [Sample.alice; Sample.bob]))
    (start (Some Sample.admin) None) _ eq_refl) as (Hl & _ & Hu & _).
  split; [exact Hl | exact Hu].
Defined.

End RaceFacts.
